(** * Distributed sampling and archive assembly of [generate.py]

    A shallow embedding of the orchestration logic of [generate.py]: the
    per-rank seed, the batch planner, the sampling loop with its global sample
    indices, the skip-if-exists shortcut and the archive builder, together
    with the properties of these that the specification states.

    Python integers are unbounded and are modelled by [Z]; [//] and [%] are
    floor division and modulus, which [Z.div] and [Z.modulo] are for the
    positive divisors that occur here.  The true division [/] of two Python
    integers yields the correctly rounded binary64 quotient; it is modelled
    exactly, on integers, in the module [PyFloat].  Float arguments are
    binary64 data ([spec_float]).

    [main] is a program in a state and exception monad.  The state of a
    process holds the file system, a finite map from paths to files, the
    random number generator and the trace of the external calls made so far.
    The networks, the samplers, the decoder and the generator are parameters
    (the class [Collaborators]).  Console output, progress bars and the
    precision switches of lines 56-58 have no influence on what follows and
    are left out; writing a file and seeding the generator always
    succeed. *)

From Stdlib Require Import ZArith Lia Ascii String Floats.SpecFloat.
From stdpp Require Import base tactics option list list_numbers strings
  pretty gmap fin_maps.

Local Open Scope Z_scope.

(** ** Errors raised by the script *)

Inductive exn :=
  | AssertionError (msg : string)
  | NotImplementedError
  | FileNotFoundError (path : string)
  | IsADirectoryError (path : string)
  | FileExistsError (path : string)
  | UnidentifiedImageError (path : string)
  | JSONDecodeError (path : string)
  | IndexError
  | ValueError (msg : string)
  | ZeroDivisionError
  | OverflowError.

(** ** Python's true division of integers, and [math.ceil] *)

Module PyFloat.

(** A finite binary64 value, written [mant * 2 ^ expo]. *)
Record dyadic := Dyadic { mant : Z; expo : Z }.

(** [num / den] rounded to the nearest integer, ties to even
    ([0 <= num], [0 < den]). *)
Definition round_half_even (num den : Z) : Z :=
  let q := num / den in
  let r := num mod den in
  match 2 * r ?= den with
  | Lt => q
  | Gt => q + 1
  | Eq => if Z.even q then q else q + 1
  end.

(** [2 ^ k <= a / b] for positive [a], [b] and any integer [k]. *)
Definition quot_ge_pow2 (a b k : Z) : bool :=
  if 0 <=? k then b * 2 ^ k <=? a else b <=? a * 2 ^ (- k).

(** [floor (log2 (a / b))] for positive [a] and [b]. *)
Definition quot_log2 (a b : Z) : Z :=
  let d := Z.log2 a - Z.log2 b in
  if quot_ge_pow2 a b d then d else d - 1.

(** The correctly rounded quotient of two positive integers: 53 bits of
    precision, the exponent of the last place not below -1074
    (subnormal numbers), round-half-even. *)
Definition true_divide_pos (a b : Z) : dyadic :=
  let s := Z.max (quot_log2 a b - 52) (-1074) in
  let m := if 0 <=? s then round_half_even a (b * 2 ^ s)
           else round_half_even (a * 2 ^ (- s)) b in
  Dyadic m s.

(** A binary64 value is finite below [2 ^ 1024]. *)
Definition overflows (x : dyadic) : bool :=
  (0 <=? expo x) && (2 ^ 1024 <=? mant x * 2 ^ expo x).

(** [a / b] on Python integers. *)
Definition true_divide (a b : Z) : exn + dyadic :=
  if b =? 0 then inl ZeroDivisionError
  else if a =? 0 then inr (Dyadic 0 0)
  else
    let x := true_divide_pos (Z.abs a) (Z.abs b) in
    if overflows x then inl OverflowError
    else inr (Dyadic (Z.sgn a * Z.sgn b * mant x) (expo x)).

(** [math.ceil] of a finite float, a Python integer. *)
Definition ceil (x : dyadic) : Z :=
  if 0 <=? expo x then mant x * 2 ^ expo x
  else - ((- mant x) / 2 ^ (- expo x)).

End PyFloat.

(** [math.ceil(a / b)] on Python integers, as line 165 computes it. *)
Definition ceil_true_divide (a b : Z) : exn + Z :=
  match PyFloat.true_divide a b with
  | inl e => inl e
  | inr x => inr (PyFloat.ceil x)
  end.

(** The ceiling of the exact quotient, for comparison. *)
Definition exact_ceil_div (a b : Z) : Z := - ((- a) / b).

(** ** The batch planner (lines 161-173) *)

Record sample_plan := SamplePlan {
  global_batch_size : Z;
  total_samples : Z;
  samples_needed_this_gpu : Z;
  iterations : Z
}.

Definition batch_plan (num_fid_samples n world_size : Z) : exn + sample_plan :=
  let global_batch_size := n * world_size in
  match ceil_true_divide num_fid_samples global_batch_size with
  | inl e => inl e
  | inr c =>
    let total_samples := c * global_batch_size in
    if negb (total_samples mod world_size =? 0) then
      inl (AssertionError "total_samples must be divisible by world_size")
    else
      let samples_needed_this_gpu := total_samples / world_size in
      if negb (samples_needed_this_gpu mod n =? 0) then
        inl (AssertionError
          "samples_needed_this_gpu must be divisible by the per-GPU batch size")
      else
        inr (SamplePlan global_batch_size total_samples
               samples_needed_this_gpu (samples_needed_this_gpu / n))
  end.

(** ** The per-rank seed (line 64) and the global sample index (line 212) *)

Definition worker_seed (global_seed rank world_size : Z) : Z :=
  (global_seed + rank) * world_size / 2.

Definition sample_index (i world_size rank total : Z) : Z :=
  i * world_size + rank + total.

(** [range(k)] *)
Definition range (k : Z) : list Z := seqZ 0 k.

(** The indices one worker assigns in one iteration that starts with the
    running total [total] and decodes a batch of [n] images, in the order of
    the inner loop (lines 211-213). *)
Definition batch_indices (n world_size rank total : Z) : list Z :=
  (fun i => sample_index i world_size rank total) <$> range n.

(** The indices one worker assigns over the whole loop (lines 176-214):
    [total] starts at 0 and is advanced by [global_batch_size] after each
    iteration. *)
Fixpoint loop_indices (iters : nat) (n world_size rank total : Z) : list Z :=
  match iters with
  | O => []
  | S k => batch_indices n world_size rank total
           ++ loop_indices k n world_size rank (total + n * world_size)
  end.

Definition worker_indices (p : sample_plan) (n world_size rank : Z) : list Z :=
  loop_indices (Z.to_nat (iterations p)) n world_size rank 0.

(** The indices of all workers of the group, rank after rank. *)
Definition group_indices (p : sample_plan) (n world_size : Z) : list Z :=
  range world_size ≫= worker_indices p n world_size.

(** ** Strings and paths *)

Definition zeros (k : nat) : string :=
  String.string_of_list_ascii (replicate k "0"%char).

(** [s.zfill(width)]: zeros are inserted after a leading sign. *)
Definition zfill (width : nat) (s : string) : string :=
  let pad := zeros (width - String.length s)%nat in
  match s with
  | String c rest =>
      if (Ascii.eqb c "+" || Ascii.eqb c "-")%bool
      then String c (pad +:+ rest) else pad +:+ s
  | EmptyString => pad
  end.

(** [f"{i:06d}"] *)
Definition format_06d (i : Z) : string := zfill 6 (pretty i).

Fixpoint has_slash (p : string) : bool :=
  match p with
  | EmptyString => false
  | String c rest => Ascii.eqb c "/" || has_slash rest
  end.

(** [os.path.basename(p)]: what follows the last slash. *)
Fixpoint basename (p : string) : string :=
  match p with
  | EmptyString => EmptyString
  | String c rest =>
      if (Ascii.eqb c "/" || has_slash rest)%bool then basename rest else p
  end.

Fixpoint ends_with_slash (p : string) : bool :=
  match p with
  | EmptyString => false
  | String c EmptyString => Ascii.eqb c "/"
  | String _ rest => ends_with_slash rest
  end.

(** [os.path.join(a, b)] for a relative, non-empty [b]. *)
Definition path_join (a b : string) : string :=
  if String.eqb a "" then b
  else if ends_with_slash a then a +:+ b
  else a +:+ "/" +:+ b.

(** [f"{sample_dir}/{i:06d}.png"] (lines 41 and 213) *)
Definition png_path (sample_dir : string) (i : Z) : string :=
  sample_dir +:+ "/" +:+ format_06d i +:+ ".png".

(** [f"{sample_dir}.npz"] (lines 46 and 147) *)
Definition npz_path (sample_dir : string) : string := sample_dir +:+ ".npz".

(** ** Arrays, files and the command line *)

(** A [uint8] array: its shape and its elements in row-major order. *)
Record ndarray := NdArray { shape : list Z; elements : list Z }.

(** [np.stack(arrays)] *)
Definition np_stack (arrays : list ndarray) : exn + ndarray :=
  match arrays with
  | [] => inl (ValueError "need at least one array to stack")
  | a :: rest =>
      if forallb (fun b => bool_decide (shape b = shape a)) rest
      then inr (NdArray (Z.of_nat (length arrays) :: shape a)
                        (arrays ≫= elements))
      else inl (ValueError "all input arrays must have the same shape")
  end.

(** The experiment configuration read from [args.json]; of its entries, the
    ones [main] itself inspects. *)
Record config := Config {
  vae : string;
  resolution : Z;
  num_classes : Z
}.

(** The file system is a finite map from paths to what is stored there.  A
    [.png] file is represented by the array [np.asarray(Image.open(path))]
    yields for it. *)
Inductive file :=
  | Directory
  | JsonFile (c : config)
  | PngFile (a : ndarray)
  | NpzFile (arr_0 : ndarray)
  | OtherFile.

Record args := Args {
  global_seed : Z;
  tf32 : bool;
  sample_dir : string;
  exp_path : option string;
  train_steps : option string;
  pproc_batch_size : Z;
  num_fid_samples : Z;
  mode : string;
  cfg_scale : spec_float;
  path_type : string;
  num_steps : Z;
  heun : bool;
  guidance_low : spec_float;
  guidance_high : spec_float
}.

(** What the launcher and the machine give one process: its rank, the group
    size, the accelerators, and [recv_skip], the flag a rank other than 0
    receives in the broadcast of line 155. *)
Record process := Process {
  rank : Z;
  world_size : Z;
  cuda_available : bool;
  device_count : Z;
  recv_skip : bool
}.

(** binary64 constants *)
Definition float_one : spec_float := S754_finite false 4503599627370496%positive (-52).
Definition float_half : spec_float := S754_finite false 4503599627370496%positive (-53).
Definition float_one_and_half : spec_float :=
  S754_finite false 6755399441055744%positive (-52).

(** [x >= y] on floats: false when either is a NaN. *)
Definition float_ge (x y : spec_float) : bool := SFleb y x.

Inductive sampler := EulerMaruyama | Euler.

(** The external calls of one process, in the order they are made.  Console
    output and progress bars are not recorded. *)
Inductive event :=
  | InitProcessGroup
  | ManualSeed (seed : Z)
  | SetDevice (device : Z)
  | LoadModels
  | Makedirs (path : string)
  | Broadcast (flag : bool)
  | Barrier
  | DestroyProcessGroup
  | DrawNoise (n : Z)
  | DrawLabels (n : Z)
  | RunSampler (s : sampler)
  | Decode
  | SavePng (path : string)
  | OpenPng (path : string)
  | SaveNpz (path : string).

Global Instance sampler_eq_dec : EqDecision sampler.
Proof. solve_decision. Defined.

Global Instance event_eq_dec : EqDecision event.
Proof. solve_decision. Defined.

(** ** The external collaborators

    The random number generator, the samplers, the autoencoder and the
    loading of the networks are outside this script; [main] is written
    against this interface. *)

Record sampling_kwargs (model tensor : Type) := SamplingKwargs {
  kw_model : model;
  kw_latents : tensor;
  kw_y : tensor;
  kw_num_steps : Z;
  kw_heun : bool;
  kw_cfg_scale : spec_float;
  kw_guidance_low : spec_float;
  kw_guidance_high : spec_float;
  kw_path_type : string
}.

Class Collaborators := {
  tensor : Type;
  generator : Type;
  (** the SiT model, the VAE and the latent statistics, once loaded *)
  models : Type;
  (** the generator [torch.manual_seed(seed)] installs *)
  seed_generator : Z → generator;
  (** [torch.randn(n, channels, size, size)] *)
  randn : generator → Z → Z → Z → tensor * generator;
  (** [torch.randint(0, num_classes, (n,))] *)
  randint : generator → Z → Z → tensor * generator;
  (** [t.shape[0]] *)
  batch_size : tensor → Z;
  euler_sampler : sampling_kwargs models tensor → tensor;
  (** the stochastic sampler draws from the generator *)
  euler_maruyama_sampler :
    sampling_kwargs models tensor → generator → tensor * generator;
  (** lines 204-208: denormalise, decode, scale to [0, 255], clamp, and
      convert to a batch of [uint8] arrays in height-width-channel layout *)
  decode_uint8 : models → tensor → list ndarray;
  (** [str(x)] for a float [x] *)
  float_str : spec_float → string;
  (** lines 89-140: load the encoders, build the model and the VAE and load
      the checkpoint, from the configuration, the experiment path, the
      zero-filled step and the number of latent channels *)
  load_networks :
    config → string → string → Z → gmap string file → exn + models
}.

(** The samplers and the decoder keep the batch dimension. *)
Class BatchPreserving `{Collaborators} : Prop := {
  randn_batch g n c l : batch_size (randn g n c l).1 = n;
  euler_batch kw : batch_size (euler_sampler kw) = batch_size (kw_latents _ _ kw);
  euler_maruyama_batch kw g :
    batch_size (euler_maruyama_sampler kw g).1 = batch_size (kw_latents _ _ kw);
  decode_batch m t : length (decode_uint8 m t) = Z.to_nat (batch_size t)
}.

Section Model.
Context `{Collaborators}.

(** ** State of one process and the monad of the script *)

Record state := State {
  fs : gmap string file;
  rng : generator;
  trace : list event
}.

(** A computation runs on a state and ends with a value or an uncaught
    exception; the state reached is kept in both cases. *)
Definition M (A : Type) : Type := state → (exn + A) * state.

Global Instance M_ret : MRet M := λ A a s, (inr a, s).

Global Instance M_bind : MBind M := λ A B k m s,
  match m s with
  | (inl e, s') => (inl e, s')
  | (inr a, s') => k a s'
  end.

Definition raise {A} (e : exn) : M A := λ s, (inl e, s).

Definition lift {A} (r : exn + A) : M A := λ s, (r, s).

Definition emit (e : event) : M unit :=
  λ s, (inr (), State (fs s) (rng s) (trace s ++ [e])).

Definition assert (b : bool) (msg : string) : M unit :=
  if b then mret () else raise (AssertionError msg).

Definition get_fs : M (gmap string file) := λ s, (inr (fs s), s).

Definition write_file (path : string) (f : file) : M unit :=
  λ s, (inr (), State (<[path := f]> (fs s)) (rng s) (trace s)).

(** [for x in xs: body(x)] *)
Fixpoint for_each {A} (xs : list A) (body : A → M unit) : M unit :=
  match xs with
  | [] => mret ()
  | x :: rest => body x;; for_each rest body
  end.

(** A loop that updates one local variable. *)
Fixpoint for_fold {A S} (xs : list A) (body : A → S → M S) (acc : S) : M S :=
  match xs with
  | [] => mret acc
  | x :: rest => acc' ← body x acc; for_fold rest body acc'
  end.

(** [enumerate(xs)] *)
Definition enumerate {A} (xs : list A) : list (Z * A) :=
  zip (range (Z.of_nat (length xs))) xs.

(** ** File system and image input and output *)

Definition os_path_exists (path : string) : M bool :=
  fsys ← get_fs;
  mret (match fsys !! path with Some _ => true | None => false end).

(** [os.makedirs(path, exist_ok=True)] *)
Definition os_makedirs (path : string) : M unit :=
  fsys ← get_fs;
  match fsys !! path with
  | Some Directory => emit (Makedirs path)
  | Some _ => raise (FileExistsError path)
  | None => write_file path Directory;; emit (Makedirs path)
  end.

(** [json.load(open(path))] *)
Definition open_json (path : string) : M config :=
  fsys ← get_fs;
  match fsys !! path with
  | None => raise (FileNotFoundError path)
  | Some Directory => raise (IsADirectoryError path)
  | Some (JsonFile c) => mret c
  | Some _ => raise (JSONDecodeError path)
  end.

(** [np.asarray(Image.open(path)).astype(np.uint8)] *)
Definition image_open (path : string) : M ndarray :=
  fsys ← get_fs;
  match fsys !! path with
  | None => raise (FileNotFoundError path)
  | Some Directory => raise (IsADirectoryError path)
  | Some (PngFile a) => emit (OpenPng path);; mret a
  | Some _ => raise (UnidentifiedImageError path)
  end.

(** [Image.fromarray(sample).save(path)] *)
Definition image_save (path : string) (sample : ndarray) : M unit :=
  write_file path (PngFile sample);; emit (SavePng path).

(** [np.savez(path, arr_0=samples)] *)
Definition np_savez (path : string) (samples : ndarray) : M unit :=
  write_file path (NpzFile samples);; emit (SaveNpz path).

(** [t[i]] on a tuple *)
Definition tuple_get (t : list Z) (i : nat) : M Z :=
  match t !! i with
  | Some x => mret x
  | None => raise IndexError
  end.

(** ** The archive builder (lines 35-49) *)

Definition create_npz_from_sample_folder (sample_dir : string) (num : Z)
  : M string :=
  samples ← for_fold (range num) (λ i samples,
    sample_np ← image_open (png_path sample_dir i);
    mret (samples ++ [sample_np])) [];
  samples ← lift (np_stack samples);
  s1 ← tuple_get (shape samples) 1;
  s2 ← tuple_get (shape samples) 2;
  assert (bool_decide (shape samples = [num; s1; s2; 3])) "";;
  let npz_path := npz_path sample_dir in
  np_savez npz_path samples;;
  mret npz_path.

(** ** Process group and random numbers *)

Definition dist_init_process_group : M unit := emit InitProcessGroup.
Definition dist_barrier : M unit := emit Barrier.
Definition dist_destroy_process_group : M unit := emit DestroyProcessGroup.

(** [dist.broadcast(skip, src=0)]: rank 0 keeps its flag, every other rank
    receives the flag of rank 0. *)
Definition dist_broadcast (P : process) (skip : bool) : M bool :=
  let flag := if rank P =? 0 then skip else recv_skip P in
  emit (Broadcast flag);; mret flag.

Definition torch_manual_seed (seed : Z) : M unit :=
  λ s, (inr (), State (fs s) (seed_generator seed) (trace s ++ [ManualSeed seed])).

Definition draw {A} (f : generator → A * generator) (e : event) : M A :=
  λ s, let '(x, g) := f (rng s) in
       (inr x, State (fs s) g (trace s ++ [e])).

Definition torch_randn (n channels size : Z) : M tensor :=
  draw (λ g, randn g n channels size) (DrawNoise n).

Definition torch_randint (classes n : Z) : M tensor :=
  draw (λ g, randint g classes n) (DrawLabels n).

(** [a % b] *)
Definition py_mod (a b : Z) : M Z :=
  if b =? 0 then raise ZeroDivisionError else mret (a mod b).

(** ** [main] *)

(** Lines 56-67. *)
Definition setup_ddp (a : args) (P : process) : M Z :=
  assert (cuda_available P)
    "Sampling with DDP requires at least one GPU. sample.py supports CPU-only usage";;
  dist_init_process_group;;
  device ← py_mod (rank P) (device_count P);
  let seed := worker_seed (global_seed a) (rank P) (world_size P) in
  torch_manual_seed seed;;
  emit (SetDevice device);;
  mret seed.

(** Lines 69-73: the experiment path and the step, or the defaults. *)
Definition resolve_experiment (a : args) : string * string :=
  match exp_path a, train_steps a with
  | Some p, Some t => (p, t)
  | _, _ => ("pretrained/sit-xl-dinov2-b-enc8-repae-sdvae-0.5-1.5-400k",
             "400000")
  end.

(** Lines 79-86: the latent size and the number of latent channels. *)
Definition latent_geometry (c : config) : exn + Z * Z :=
  if String.eqb (vae c) "f8d4" then inr (resolution c / 8, 4)
  else if String.eqb (vae c) "f16d32" then inr (resolution c / 16, 32)
  else inl NotImplementedError.

(** Lines 89-140. *)
Definition assemble (c : config) (exp_path train_step_str : string)
    (in_channels : Z) : M models :=
  fsys ← get_fs;
  m ← lift (load_networks c exp_path train_step_str in_channels fsys);
  emit LoadModels;;
  mret m.

(** Line 144. *)
Definition sample_folder_dir (a : args) (exp_name train_step_str : string)
  : string :=
  sample_dir a +:+ "/" +:+ exp_name +:+ "_" +:+ train_step_str +:+ "_cfg"
    +:+ float_str (cfg_scale a) +:+ "-" +:+ float_str (guidance_low a)
    +:+ "-" +:+ float_str (guidance_high a).

(** Lines 145-152: rank 0 looks for the archive. *)
Definition decide_skip (P : process) (sample_folder_dir : string) : M bool :=
  if rank P =? 0 then
    found ← os_path_exists (npz_path sample_folder_dir);
    if found : bool then mret true
    else os_makedirs sample_folder_dir;; mret false
  else mret false.

(** Lines 197-202. *)
Definition run_sampler (a : args) (kw : sampling_kwargs models tensor)
  : M tensor :=
  if String.eqb (mode a) "sde" then
    draw (euler_maruyama_sampler kw) (RunSampler EulerMaruyama)
  else if String.eqb (mode a) "ode" then
    emit (RunSampler Euler);; mret (euler_sampler kw)
  else raise NotImplementedError.

(** One iteration of the sampling loop (lines 178-214); the value is the
    running total for the next iteration. *)
Definition sampling_iteration (a : args) (P : process) (c : config)
    (m : models) (latent_size in_channels : Z) (sample_folder_dir : string)
    (n global_batch_size total : Z) : M Z :=
  z ← torch_randn n in_channels latent_size;
  y ← torch_randint (num_classes c) n;
  assert (negb (heun a) || String.eqb (mode a) "ode")
    "Heun's method is only available for ODE sampling.";;
  let sampling_kwargs :=
    SamplingKwargs _ _ m z y (num_steps a) (heun a) (cfg_scale a)
      (guidance_low a) (guidance_high a) (path_type a) in
  samples ← run_sampler a sampling_kwargs;
  emit Decode;;
  let samples := decode_uint8 m samples in
  for_each (enumerate samples) (λ '(i, sample),
    let index := sample_index i (world_size P) (rank P) total in
    image_save (png_path sample_folder_dir index) sample);;
  mret (total + global_batch_size).

(** Lines 161-214. *)
Definition sample_all (a : args) (P : process) (c : config) (m : models)
    (latent_size in_channels : Z) (sample_folder_dir : string) : M unit :=
  let n := pproc_batch_size a in
  plan ← lift (batch_plan (num_fid_samples a) n (world_size P));
  for_fold (range (iterations plan)) (λ _ total,
    sampling_iteration a P c m latent_size in_channels sample_folder_dir
      n (global_batch_size plan) total) 0;;
  mret ().

(** Lines 216-222. *)
Definition finish (a : args) (P : process) (sample_folder_dir : string)
  : M unit :=
  dist_barrier;;
  (if rank P =? 0 then
     create_npz_from_sample_folder sample_folder_dir (num_fid_samples a);;
     mret ()
   else mret ());;
  dist_barrier;;
  dist_destroy_process_group.

(** What lines 56-140 hand to the rest of [main]. *)
Record loaded := Loaded {
  l_config : config;
  l_models : models;
  l_latent_size : Z;
  l_in_channels : Z;
  l_exp_name : string;
  l_train_step_str : string
}.

(** Lines 56-140: the process group, the configuration and the networks. *)
Definition load_all (a : args) (P : process) : M loaded :=
  setup_ddp a P;;
  let '(exp_path, train_steps) := resolve_experiment a in
  c ← open_json (path_join exp_path "args.json");
  '(latent_size, in_channels) ← lift (latent_geometry c);
  let exp_name := basename exp_path in
  let train_step_str := zfill 7 train_steps in
  m ← assemble c exp_path train_step_str in_channels;
  mret (Loaded c m latent_size in_channels exp_name train_step_str).

(** Lines 155-222: the broadcast of the flag and what follows it. *)
Definition after_decision (a : args) (P : process) (l : loaded)
    (sample_folder_dir : string) (skip : bool) : M unit :=
  skip ← dist_broadcast P skip;
  if skip : bool then dist_destroy_process_group
  else
    dist_barrier;;
    sample_all a P (l_config l) (l_models l) (l_latent_size l)
      (l_in_channels l) sample_folder_dir;;
    finish a P sample_folder_dir.

Definition main (a : args) (P : process) : M unit :=
  l ← load_all a P;
  assert (float_ge (cfg_scale a) float_one) "cfg_scale should be >= 1.0";;
  let sample_folder_dir :=
    sample_folder_dir a (l_exp_name l) (l_train_step_str l) in
  skip ← decide_skip P sample_folder_dir;
  after_decision a P l sample_folder_dir skip.

(** ** Reading a trace *)

Definition is_sampling (e : event) : bool :=
  match e with
  | DrawNoise _ | DrawLabels _ | RunSampler _ | Decode | SavePng _ => true
  | _ => false
  end.

(** The events of loading and of the skip decision. *)
Definition is_setup (e : event) : bool :=
  match e with
  | InitProcessGroup | ManualSeed _ | SetDevice _ | LoadModels
  | Makedirs _ => true
  | _ => false
  end.

(** The invocation of a sampler and the saving of an image. *)
Definition is_output (e : event) : bool :=
  match e with
  | RunSampler _ | SavePng _ => true
  | _ => false
  end.

Definition saved_paths (tr : list event) : list string :=
  omap (λ e, match e with SavePng p => Some p | _ => None end) tr.

Definition opened_paths (tr : list event) : list string :=
  omap (λ e, match e with OpenPng p => Some p | _ => None end) tr.

Definition broadcast_flags (tr : list event) : list bool :=
  omap (λ e, match e with Broadcast b => Some b | _ => None end) tr.

Definition count_barriers (tr : list event) : nat :=
  length (filter (λ e, e = Barrier) tr).

(** ** The group of workers up to the skip decision

    All workers are launched with the same arguments on the same file
    system.  [run_worker] runs one of them against the file system as it
    was at launch, with the flag rank 0 broadcasts; it describes a worker
    of a group faithfully as long as no worker depends on what another
    one wrote, in particular on the whole skip path, and for a group of
    one worker throughout.  When rank 0 fails before the broadcast nothing is
    sent, and the flag is taken to be [false]. *)

Record group := Group {
  g_world_size : Z;
  g_cuda_available : bool;
  g_device_count : Z;
  g_fs : gmap string file;
  (** the generator each rank starts with, before it is seeded *)
  g_rng : Z → generator
}.

Definition init_state (G : group) (r : Z) : state :=
  State (g_fs G) (g_rng G r) [].

Definition member (G : group) (r : Z) (flag : bool) : process :=
  Process r (g_world_size G) (g_cuda_available G) (g_device_count G) flag.

(** The flag rank 0 sends in the broadcast of line 155. *)
Definition flag_of_rank0 (a : args) (G : group) : bool :=
  default false
    (head (broadcast_flags (trace (main a (member G 0 false) (init_state G 0)).2))).

Definition run_worker (a : args) (G : group) (r : Z) : (exn + unit) * state :=
  main a (member G r (flag_of_rank0 a G)) (init_state G r).

(** ** Vocabulary for the properties *)

(** The trace grew, by events that satisfy [Q]. *)
Definition extends (Q : event → Prop) : relation state :=
  λ s s', ∃ tr, trace s' = trace s ++ tr ∧ Forall Q tr.

(** The file system is the same. *)
Definition same_files : relation state := λ s s', fs s' = fs s.

(** Events of loading and of the skip decision only. *)
Definition quiet (e : event) : Prop := is_setup e = true.

(** Events other than a sampler invocation and the saving of an image. *)
Definition idle (e : event) : Prop := is_output e = false.

(** Every run of [m] relates the state it starts in to the state it ends
    in, whether it ends with a value or with an exception. *)
Definition stays {A} (R : relation state) (m : M A) : Prop :=
  ∀ s, R s (m s).2.

(** The events of a successful loading phase. *)
Definition loading_events (a : args) (P : process) : list event :=
  [InitProcessGroup;
   ManualSeed (worker_seed (global_seed a) (rank P) (world_size P));
   SetDevice (rank P mod device_count P);
   LoadModels].

(** The events of reading the images at the indices [ys]. *)
Definition open_events (dir : string) (ys : list Z) : list event :=
  (λ i, OpenPng (png_path dir i)) <$> ys.

(** The generator after the noise and the labels of one batch are drawn. *)
Definition after_draws (c : config) (ls ic n : Z) (g : generator) : generator :=
  (randint (randn g n ic ls).2 (num_classes c) n).2.

(** The events of saving the images at the given indices. *)
Definition save_events (dir : string) (indices : list Z) : list event :=
  (λ i, SavePng (png_path dir i)) <$> indices.

End Model.

(** Any event. *)
Definition any : event → Prop := λ _, True.

(** ** Stub collaborators

    A generator that counts its draws, tensors that are their batch size,
    a decoder that yields blank 2x2 RGB images, and a [str] that knows four
    floats. *)

(** The same binary64 datum. *)
Definition same_float (x y : spec_float) : bool :=
  match x, y with
  | S754_zero s, S754_zero s' => Bool.eqb s s'
  | S754_infinity s, S754_infinity s' => Bool.eqb s s'
  | S754_nan, S754_nan => true
  | S754_finite s m e, S754_finite s' m' e' =>
      Bool.eqb s s' && Pos.eqb m m' && Z.eqb e e'
  | _, _ => false
  end.

Definition blank_image : ndarray := NdArray [2; 2; 3] (replicate 12 0).

Definition stub : Collaborators := {|
  tensor := Z;
  generator := Z;
  models := unit;
  seed_generator seed := seed;
  randn g n _ _ := (n, g + 1);
  randint g _ n := (n, g + 1);
  batch_size t := t;
  euler_sampler kw := kw_latents _ _ kw;
  euler_maruyama_sampler kw g := (kw_latents _ _ kw, g + 1);
  decode_uint8 _ t := replicate (Z.to_nat t) blank_image;
  float_str x :=
    if same_float x float_one_and_half then "1.5"
    else if same_float x float_one then "1.0"
    else if same_float x float_half then "0.5"
    else if same_float x (S754_zero false) then "0.0"
    else "nan";
  load_networks _ _ _ _ _ := inr ()
|}.

Definition default_config : config := Config "f8d4" 256 1000.

(** A command line: the defaults of lines 226-253 but for the number of
    samples, the batch size, the mode, Heun's method and the guidance
    scale. *)
Definition make_args (num_fid_samples pproc_batch_size : Z) (mode : string)
    (heun : bool) (cfg_scale : spec_float) : args := {|
  global_seed := 0;
  tf32 := true;
  sample_dir := "samples";
  exp_path := None;
  train_steps := None;
  pproc_batch_size := pproc_batch_size;
  num_fid_samples := num_fid_samples;
  mode := mode;
  cfg_scale := cfg_scale;
  path_type := "linear";
  num_steps := 50;
  heun := heun;
  guidance_low := S754_zero false;
  guidance_high := float_one
|}.

Definition default_args (num_fid_samples pproc_batch_size : Z) : args :=
  make_args num_fid_samples pproc_batch_size "ode" false float_one_and_half.

Definition default_exp_path : string :=
  "pretrained/sit-xl-dinov2-b-enc8-repae-sdvae-0.5-1.5-400k".

Definition default_folder : string :=
  "samples/sit-xl-dinov2-b-enc8-repae-sdvae-0.5-1.5-400k_0400000_cfg1.5-0.0-1.0".

(** A file system that holds the configuration of the default experiment. *)
Definition fs_config : gmap string file :=
  {[ default_exp_path +:+ "/args.json" := JsonFile default_config ]}.

(** The same with the sample folder of an interrupted run, and with the
    archive of a finished one. *)
Definition fs_folder : gmap string file :=
  <[ default_folder := Directory ]> fs_config.

Definition fs_archived : gmap string file :=
  <[ npz_path default_folder := NpzFile (NdArray [1; 2; 2; 3] (replicate 12 0)) ]>
    fs_config.

(** A group of stub workers on one device. *)
Definition stub_group (world_size : Z) (fsys : gmap string file) : @group stub :=
  @Group stub world_size true 1 fsys (λ _, 0).

(** What loading yields for the default experiment. *)
Definition stub_loaded : @loaded stub :=
  @Loaded stub default_config () 32 4
    "sit-xl-dinov2-b-enc8-repae-sdvae-0.5-1.5-400k" "0400000".

(** A folder ["out"] with four images. *)
Definition fs_images : gmap string file :=
  list_to_map ((λ i, (png_path "out" i, PngFile blank_image)) <$> range 4).

(** ** Vocabulary for file names and for what a run writes *)

(** [s] without its leading zeros, but for its last character. *)
Fixpoint strip_zeros (s : string) : string :=
  match s with
  | String c (String _ _ as rest) =>
      if Ascii.eqb c "0" then strip_zeros rest else s
  | _ => s
  end.

(** The numeral a zero-filled numeral stands for: the inverse of [zfill] on
    decimal numerals. *)
Definition unfill (s : string) : string :=
  match s with
  | String c rest =>
      if Ascii.eqb c "-" then String c (strip_zeros rest) else strip_zeros s
  | EmptyString => s
  end.

(** A string that starts with a character other than a zero and a sign. *)
Definition leading (s : string) : Prop :=
  ∃ c rest, s = String c rest ∧ c ≠ "0"%char ∧ c ≠ "-"%char ∧ c ≠ "+"%char.

(** The paths of a sample folder: the folder, its archive and its images. *)
Definition in_folder (dir path : string) : Prop :=
  path = dir ∨ path = npz_path dir ∨ ∃ i, path = png_path dir i.

Section Footprint.
Context `{Collaborators}.

(** No file is removed, and no path outside the sample folder [dir] is
    touched. *)
Definition confined (dir : string) : relation state := λ s s',
  ∀ path,
    (is_Some (fs s !! path) → is_Some (fs s' !! path)) ∧
    (¬ in_folder dir path → fs s' !! path = fs s !! path).

(** The file system changed at the paths of the images saved, and there it
    holds an image that satisfies [Sh]. *)
Definition saved (Sh : ndarray → Prop) : relation state := λ s s',
  ∃ tr, trace s' = trace s ++ tr ∧
    ∀ path,
      (path ∈ saved_paths tr →
         ∃ img, fs s' !! path = Some (PngFile img) ∧ Sh img) ∧
      (path ∉ saved_paths tr → fs s' !! path = fs s !! path).

End Footprint.

(** Events of the sampling loop only. *)
Definition sampling (e : event) : Prop := is_sampling e = true.

(** Events other than leaving the process group. *)
Definition calm (e : event) : Prop := e ≠ DestroyProcessGroup.

Section Exit.
Context `{Collaborators}.

(** [m] leaves the process group as its last act when it ends normally,
    and not at all when it fails. *)
Definition leaves_on_success {A} (m : M A) : Prop :=
  ∀ s, ∃ tr, Forall calm tr ∧
    trace (m s).2 =
      trace s ++ tr ++
        match (m s).1 with inr _ => [DestroyProcessGroup] | inl _ => [] end.

End Exit.

(** * Properties *)

(** ** True division and the ceiling *)

Module PyFloatFacts.
Import PyFloat.

Lemma quot_ge_pow2_spec a b k :
  quot_ge_pow2 a b k = true ↔ b * 2 ^ Z.max k 0 ≤ a * 2 ^ Z.max (- k) 0.
Proof.
  unfold quot_ge_pow2. destruct (Z.leb_spec 0 k).
  - rewrite Z.max_l, Z.max_r by lia. rewrite Z.leb_le. simpl. lia.
  - rewrite Z.max_r, Z.max_l by lia. rewrite Z.leb_le. simpl. lia.
Qed.

Lemma quot_ge_pow2_false a b k :
  quot_ge_pow2 a b k = false ↔ a * 2 ^ Z.max (- k) 0 < b * 2 ^ Z.max k 0.
Proof.
  rewrite <- not_true_iff_false, quot_ge_pow2_spec. lia.
Qed.

(** [2 ^ (x + y)] with the exponents split. *)
Lemma pow2_add x y : 0 ≤ x → 0 ≤ y → 2 ^ (x + y) = 2 ^ x * 2 ^ y.
Proof. intros. by apply Z.pow_add_r. Qed.

Lemma pow2_pos x : 0 ≤ x → 0 < 2 ^ x.
Proof. intros. by apply Z.pow_pos_nonneg. Qed.

Lemma log2_bounds a : 0 < a → 2 ^ Z.log2 a ≤ a < 2 ^ (Z.log2 a + 1).
Proof.
  intros Ha. destruct (Z.log2_spec a Ha) as [? ?].
  split; [done|]. by rewrite <- Z.add_1_r in *.
Qed.

(** [quot_log2 a b] is the exponent [e] with [2^e <= a/b < 2^(e+1)]. *)
Lemma quot_log2_spec a b :
  0 < a → 0 < b →
  quot_ge_pow2 a b (quot_log2 a b) = true ∧
  quot_ge_pow2 a b (quot_log2 a b + 1) = false.
Proof.
  intros Ha Hb. unfold quot_log2.
  pose proof (log2_bounds a Ha) as [Ha1 Ha2].
  pose proof (log2_bounds b Hb) as [Hb1 Hb2].
  pose proof (Z.log2_nonneg a) as Hla. pose proof (Z.log2_nonneg b) as Hlb.
  set (la := Z.log2 a) in *. set (lb := Z.log2 b) in *.
  set (d := la - lb).
  assert (Hlow : quot_ge_pow2 a b (d - 1) = true).
  { apply quot_ge_pow2_spec. destruct (Z.le_gt_cases 0 (d - 1)).
    - rewrite Z.max_l, Z.max_r by lia. rewrite Z.pow_0_r.
      assert (2 ^ la = 2 ^ (lb + 1) * 2 ^ (d - 1)) as Hs.
      { rewrite <- pow2_add by lia. f_equal. lia. }
      pose proof (pow2_pos (d - 1) ltac:(lia)). nia.
    - rewrite Z.max_r, Z.max_l by lia. rewrite Z.pow_0_r.
      assert (2 ^ (lb + 1) = 2 ^ la * 2 ^ (- (d - 1))) as Hs.
      { rewrite <- pow2_add by lia. f_equal. lia. }
      pose proof (pow2_pos (- (d - 1)) ltac:(lia)). nia. }
  assert (Hhigh : quot_ge_pow2 a b (d + 1) = false).
  { apply quot_ge_pow2_false. destruct (Z.le_gt_cases 0 (d + 1)).
    - rewrite (Z.max_l (d + 1) 0), (Z.max_r (- (d + 1)) 0) by lia.
      rewrite Z.pow_0_r.
      assert (2 ^ (la + 1) = 2 ^ lb * 2 ^ (d + 1)) as Hs.
      { rewrite <- pow2_add by lia. f_equal. lia. }
      pose proof (pow2_pos (d + 1) ltac:(lia)). nia.
    - rewrite (Z.max_r (d + 1) 0), (Z.max_l (- (d + 1)) 0) by lia.
      rewrite Z.pow_0_r.
      assert (2 ^ lb = 2 ^ (la + 1) * 2 ^ (- (d + 1))) as Hs.
      { rewrite <- pow2_add by lia. f_equal. lia. }
      pose proof (pow2_pos (- (d + 1)) ltac:(lia)). nia. }
  destruct (quot_ge_pow2 a b d) eqn:Hd.
  - by split.
  - split; [done|]. by replace (d - 1 + 1) with d by lia.
Qed.

(** Rounding to nearest moves by at most one half. *)
Lemma round_half_even_bounds num den :
  0 < den →
  2 * num - den ≤ 2 * den * round_half_even num den ≤ 2 * num + den.
Proof.
  intros Hden. unfold round_half_even.
  pose proof (Z.div_mod num den ltac:(lia)) as Hdm.
  pose proof (Z.mod_pos_bound num den Hden) as Hr.
  set (q := num / den) in *. set (r := num mod den) in *.
  destruct (Z.compare_spec (2 * r) den); [destruct (Z.even q)|..]; nia.
Qed.

Lemma round_half_even_1 num : round_half_even num 1 = num.
Proof.
  unfold round_half_even. rewrite Z.mod_1_r, Z.div_1_r. done.
Qed.

(** The ceiling of the exact quotient is characterised by two bounds. *)
Lemma exact_ceil_div_bounds a b :
  0 < b → (exact_ceil_div a b - 1) * b < a ≤ exact_ceil_div a b * b.
Proof.
  intros Hb. unfold exact_ceil_div.
  pose proof (Z.div_mod (- a) b ltac:(lia)).
  pose proof (Z.mod_pos_bound (- a) b Hb). nia.
Qed.

Lemma exact_ceil_div_unique a b c :
  0 < b → (c - 1) * b < a ≤ c * b → exact_ceil_div a b = c.
Proof.
  intros Hb Hc. pose proof (exact_ceil_div_bounds a b Hb). nia.
Qed.

Lemma quot_log2_range a b :
  1 ≤ a < 2 ^ 53 → 1 ≤ b ≤ 2 ^ 1022 → -1022 ≤ quot_log2 a b ≤ 52.
Proof.
  intros Ha Hb.
  destruct (quot_log2_spec a b ltac:(lia) ltac:(lia)) as [Hge Hlt].
  apply quot_ge_pow2_spec in Hge. apply quot_ge_pow2_false in Hlt.
  set (e := quot_log2 a b) in *. split.
  - destruct (Z.le_gt_cases (-1022) e) as [|Hlow]; [done|exfalso].
    rewrite (Z.max_l (- (e + 1)) 0), (Z.max_r (e + 1) 0), Z.pow_0_r in Hlt by lia.
    pose proof (Z.pow_le_mono_r 2 1022 (- (e + 1)) ltac:(lia) ltac:(lia)).
    pose proof (pow2_pos 1022 ltac:(lia)). nia.
  - destruct (Z.le_gt_cases e 52) as [|Hhigh]; [done|exfalso].
    rewrite (Z.max_l e 0), (Z.max_r (- e) 0), Z.pow_0_r in Hge by lia.
    pose proof (Z.pow_le_mono_r 2 53 e ltac:(lia) ltac:(lia)).
    pose proof (pow2_pos 53 ltac:(lia)). nia.
Qed.

Lemma true_divide_pos_exact a b :
  1 ≤ a < 2 ^ 53 → 1 ≤ b ≤ 2 ^ 1022 →
  overflows (true_divide_pos a b) = false ∧
  ceil (true_divide_pos a b) = exact_ceil_div a b.
Proof.
  intros Ha Hb.
  destruct (quot_log2_spec a b ltac:(lia) ltac:(lia)) as [Hge _].
  apply quot_ge_pow2_spec in Hge.
  pose proof (quot_log2_range a b Ha Hb) as He.
  unfold true_divide_pos, overflows, ceil.
  set (e := quot_log2 a b) in *.
  rewrite (Z.max_l (e - 52) (-1074)) by lia. cbn [mant expo].
  destruct (Z.leb_spec 0 (e - 52)) as [Hs|Hs].
  - (* the quotient has 53 bits: the divisor is 1 *)
    rewrite (Z.max_l e 0), (Z.max_r (- e) 0), Z.pow_0_r in Hge by lia.
    assert (e = 52) as -> by lia.
    assert (b = 1) as ->.
    { pose proof (pow2_add 52 1 ltac:(lia) ltac:(lia)) as Hp.
      change (52 + 1) with 53 in Hp. change (2 ^ 1) with 2 in Hp.
      pose proof (pow2_pos 52 ltac:(lia)). nia. }
    change (52 - 52) with 0. rewrite Z.pow_0_r, !Z.mul_1_r, round_half_even_1.
    split.
    + apply andb_false_intro2, Z.leb_gt.
      pose proof (Z.pow_lt_mono_r 2 53 1024 ltac:(lia) ltac:(lia) ltac:(lia)). lia.
    + symmetry. apply exact_ceil_div_unique; lia.
  - split; [done|].
    set (t := - (e - 52)).
    assert (0 < t) as Ht by lia.
    pose proof (pow2_pos t ltac:(lia)) as Hpt.
    pose proof (round_half_even_bounds (a * 2 ^ t) b ltac:(lia)) as Hm.
    set (m := round_half_even (a * 2 ^ t) b) in *.
    pose proof (exact_ceil_div_bounds a b ltac:(lia)) as Hc.
    set (c := exact_ceil_div a b) in *.
    assert (b < 2 * 2 ^ t) as Hbt.
    { destruct (Z.le_gt_cases 0 e).
      - rewrite (Z.max_l e 0), (Z.max_r (- e) 0), Z.pow_0_r in Hge by lia.
        assert (2 ^ 53 = 2 * 2 ^ t * 2 ^ e) as Hp.
        { change 2 with (2 ^ 1) at 2. rewrite <- !pow2_add by lia.
          f_equal. lia. }
        pose proof (pow2_pos e ltac:(lia)). nia.
      - rewrite (Z.max_r e 0), (Z.max_l (- e) 0), Z.pow_0_r in Hge by lia.
        assert (2 * 2 ^ t = 2 ^ 53 * 2 ^ (- e)) as Hp.
        { change 2 with (2 ^ 1) at 1. rewrite <- !pow2_add by lia.
          f_equal. lia. }
        pose proof (pow2_pos (- e) ltac:(lia)). nia. }
    change (- (- m / 2 ^ t)) with (exact_ceil_div m (2 ^ t)).
    apply exact_ceil_div_unique; [done|]. nia.
Qed.

(** Below [2 ^ 53] the rounding of the quotient never reaches the next
    integer from the wrong side: [math.ceil(a / b)] is the exact ceiling. *)
Lemma ceil_true_divide_exact a b :
  1 ≤ a < 2 ^ 53 → 1 ≤ b ≤ 2 ^ 1022 →
  ceil_true_divide a b = inr (exact_ceil_div a b).
Proof.
  intros Ha Hb. destruct (true_divide_pos_exact a b Ha Hb) as [Hov Hceil].
  unfold ceil_true_divide, true_divide.
  destruct (Z.eqb_spec b 0); [lia|]. destruct (Z.eqb_spec a 0); [lia|].
  rewrite !Z.abs_eq by lia. rewrite Hov.
  rewrite !Z.sgn_pos by lia. rewrite <- Hceil.
  unfold ceil. cbn [mant expo]. by rewrite !Z.mul_1_l.
Qed.

End PyFloatFacts.

(** ** The batch planner *)

(** Once the ceiling [c] is computed the two assertions hold, and the plan is
    determined by [c]. *)
Lemma batch_plan_unfold requested n world_size :
  n ≠ 0 → world_size ≠ 0 →
  batch_plan requested n world_size =
    match ceil_true_divide requested (n * world_size) with
    | inl e => inl e
    | inr c => inr (SamplePlan (n * world_size) (c * (n * world_size)) (c * n) c)
    end.
Proof.
  intros Hn Hw. unfold batch_plan.
  destruct (ceil_true_divide requested (n * world_size)) as [e|c]; [done|].
  rewrite Z.mul_assoc, Z_mod_mult, Z.eqb_refl. cbn [negb].
  rewrite Z.div_mul by done.
  rewrite Z_mod_mult, Z.eqb_refl. cbn [negb].
  by rewrite Z.div_mul by done.
Qed.

Lemma batch_plan_inr requested n world_size p :
  n ≠ 0 → world_size ≠ 0 →
  batch_plan requested n world_size = inr p →
  global_batch_size p = n * world_size ∧
  total_samples p = iterations p * (n * world_size) ∧
  samples_needed_this_gpu p = iterations p * n.
Proof.
  intros Hn Hw. rewrite batch_plan_unfold by done.
  destruct (ceil_true_divide _ _); intros [= <-]. done.
Qed.

(** Where the quotient is computed exactly the plan is the intended one. *)
Lemma batch_plan_exact requested n world_size :
  1 ≤ requested < 2 ^ 53 → 1 ≤ n → 1 ≤ world_size →
  n * world_size ≤ 2 ^ 1022 →
  let c := exact_ceil_div requested (n * world_size) in
  batch_plan requested n world_size =
    inr (SamplePlan (n * world_size) (c * (n * world_size)) (c * n) c) ∧
  1 ≤ c ∧
  requested ≤ c * (n * world_size) ∧
  ∀ k, requested ≤ k * (n * world_size) → c * (n * world_size) ≤ k * (n * world_size).
Proof.
  intros Hr Hn Hw Hb c.
  assert (1 ≤ n * world_size) as Hg by nia.
  rewrite batch_plan_unfold by lia.
  rewrite PyFloatFacts.ceil_true_divide_exact by lia.
  pose proof (PyFloatFacts.exact_ceil_div_bounds requested (n * world_size) ltac:(lia)) as Hc.
  fold c in Hc. split_and!; [done|nia|lia|]. intros k Hk.
  assert (c - 1 < k) by nia. nia.
Qed.

(** ** The global sample indices *)

Lemma elem_of_batch_indices x n world_size rank total :
  x ∈ batch_indices n world_size rank total ↔
  ∃ i, 0 ≤ i < n ∧ x = sample_index i world_size rank total.
Proof.
  unfold batch_indices, range. rewrite list_elem_of_fmap.
  setoid_rewrite elem_of_seqZ. split.
  - intros (i & -> & Hi). exists i. split; [lia|done].
  - intros (i & Hi & ->). exists i. split; [done|lia].
Qed.

Lemma elem_of_loop_indices iters x n world_size rank total :
  x ∈ loop_indices iters n world_size rank total ↔
  ∃ it i, 0 ≤ it < Z.of_nat iters ∧ 0 ≤ i < n ∧
          x = sample_index i world_size rank (total + it * (n * world_size)).
Proof.
  revert total. induction iters as [|k IH]; intros total; cbn [loop_indices].
  - rewrite elem_of_nil. split; [done|]. intros (it & i & ? & _). lia.
  - rewrite elem_of_app, elem_of_batch_indices, IH. split.
    + intros [(i & Hi & ->)|(it & i & Hit & Hi & ->)].
      * exists 0, i. split_and!; [lia..|]. f_equal. lia.
      * exists (it + 1), i. split_and!; [lia..|]. f_equal. lia.
    + intros (it & i & Hit & Hi & ->).
      destruct (decide (it = 0)) as [->|Hne].
      * left. exists i. split; [done|]. f_equal. lia.
      * right. exists (it - 1), i. split_and!; [lia..|]. f_equal. lia.
Qed.

(** Distinct positions of the loop have distinct indices: the index
    determines the rank, the position in the batch and the iteration. *)
Lemma sample_index_inj n world_size it i r it' i' r' :
  0 < n → 0 < world_size →
  0 ≤ i < n → 0 ≤ r < world_size → 0 ≤ i' < n → 0 ≤ r' < world_size →
  sample_index i world_size r (it * (n * world_size)) =
  sample_index i' world_size r' (it' * (n * world_size)) →
  it = it' ∧ i = i' ∧ r = r'.
Proof.
  unfold sample_index. intros Hn Hw Hi Hr Hi' Hr' Heq.
  assert (r = r') as ->.
  { assert ((it * n + i) * world_size + r = (it' * n + i') * world_size + r')
      as Hq by lia.
    apply (f_equal (λ z, z mod world_size)) in Hq.
    rewrite !(Z.add_comm (_ * world_size)), !Z_mod_plus_full in Hq.
    by rewrite !Z.mod_small in Hq by lia. }
  assert (it * n + i = it' * n + i') as Hq by nia.
  assert (i = i') as ->.
  { apply (f_equal (λ z, z mod n)) in Hq.
    rewrite !(Z.add_comm (_ * n)), !Z_mod_plus_full in Hq.
    by rewrite !Z.mod_small in Hq by lia. }
  split_and!; [nia|done..].
Qed.

Lemma NoDup_batch_indices n world_size rank total :
  0 < world_size → NoDup (batch_indices n world_size rank total).
Proof.
  intros Hw. unfold batch_indices. apply NoDup_fmap_2_strong.
  - unfold sample_index. intros i j _ _ ?. nia.
  - apply NoDup_seqZ.
Qed.

Lemma NoDup_loop_indices iters n world_size rank total :
  0 < n → 0 < world_size →
  NoDup (loop_indices iters n world_size rank total).
Proof.
  intros Hn Hw. revert total.
  induction iters as [|k IH]; intros total; cbn [loop_indices].
  - constructor.
  - apply NoDup_app. split_and!.
    + by apply NoDup_batch_indices.
    + intros x (i & Hi & ->)%elem_of_batch_indices
        (it & j & Hit & Hj & Heq)%elem_of_loop_indices.
      unfold sample_index in Heq. nia.
    + apply IH.
Qed.

Lemma elem_of_all_loop_indices iters x n world_size :
  0 < n → 0 < world_size →
  x ∈ range world_size ≫= (λ r, loop_indices iters n world_size r 0) ↔
  0 ≤ x < Z.of_nat iters * (n * world_size).
Proof.
  intros Hn Hw. rewrite list_elem_of_bind. unfold range.
  setoid_rewrite elem_of_seqZ. setoid_rewrite elem_of_loop_indices. split.
  - intros (r & (it & i & Hit & Hi & ->) & Hr). unfold sample_index.
    assert (0 ≤ i * world_size ≤ (n - 1) * world_size) by nia.
    assert (0 ≤ it * (n * world_size)
            ≤ (Z.of_nat iters - 1) * (n * world_size)) by nia.
    nia.
  - intros Hx. exists (x mod world_size).
    pose proof (Z.mod_pos_bound x world_size Hw).
    pose proof (Z.div_mod x world_size ltac:(lia)) as Hdm.
    set (q := x / world_size) in *.
    pose proof (Z.mod_pos_bound q n Hn).
    pose proof (Z.div_mod q n ltac:(lia)) as Hdm'.
    split; [|lia]. exists (q / n), (q mod n). unfold sample_index.
    set (r := x mod world_size) in *. set (i := q mod n) in *.
    set (it := q / n) in *.
    assert (0 ≤ q) by nia.
    assert (q < Z.of_nat iters * n) by nia.
    assert (0 ≤ it) by nia.
    assert (it < Z.of_nat iters) by nia.
    split_and!; [lia..|nia].
Qed.

Lemma NoDup_all_loop_indices iters n world_size :
  0 < n → 0 < world_size →
  NoDup (range world_size ≫= (λ r, loop_indices iters n world_size r 0)).
Proof.
  intros Hn Hw. apply NoDup_bind.
  - unfold range. intros r r' x Hr%elem_of_seqZ Hr'%elem_of_seqZ
      (it & i & Hit & Hi & ->)%elem_of_loop_indices
      (it' & i' & Hit' & Hi' & Heq)%elem_of_loop_indices.
    rewrite !Z.add_0_l in Heq.
    by destruct (sample_index_inj n world_size it i r it' i' r') as (_ & _ & ?);
      try lia.
  - intros r _. by apply NoDup_loop_indices.
  - apply NoDup_seqZ.
Qed.

(** ** Runs of the script: what they record and what they leave alone *)

Section Runs.
Context `{Collaborators}.

Lemma run_bind {A B} (m : M A) (k : A → M B) s :
  (m ≫= k) s =
  match m s with
  | (inl e, s') => (inl e, s')
  | (inr a, s') => k a s'
  end.
Proof. reflexivity. Qed.

Global Instance extends_preorder Q : PreOrder (extends Q).
Proof.
  split.
  - intros s. exists []. by rewrite app_nil_r.
  - intros s1 s2 s3 (tr & Htr & HQ) (tr' & Htr' & HQ'). exists (tr ++ tr').
    rewrite Htr', Htr, (assoc_L (++)). split; [done|]. by apply Forall_app.
Qed.

Global Instance same_files_preorder : PreOrder same_files.
Proof.
  split; [done|]. unfold same_files. intros s1 s2 s3 H12 H23. congruence.
Qed.

Lemma extends_weaken (Q Q' : event → Prop) s s' :
  (∀ e, Q e → Q' e) → extends Q s s' → extends Q' s s'.
Proof.
  intros HQ (tr & ? & ?). exists tr. split; [done|]. by eapply Forall_impl.
Qed.

Lemma quiet_trace tr :
  Forall quiet tr →
  broadcast_flags tr = [] ∧ saved_paths tr = [] ∧ opened_paths tr = [] ∧
  filter (λ e, is_sampling e = true) tr = [] ∧ count_barriers tr = 0%nat.
Proof.
  unfold count_barriers. induction 1 as [|e tr He _ IH]; [done|].
  destruct IH as (? & ? & ? & ? & ?).
  destruct e; try discriminate He; cbn;
    rewrite ?filter_cons_False by done; done.
Qed.

Section Stays.
Context (R : relation state) `{!PreOrder R}.

Lemma stays_ret {A} (a : A) : stays R (mret a).
Proof. intros s. reflexivity. Qed.

Lemma stays_raise {A} e : stays R (raise (A:=A) e).
Proof. intros s. reflexivity. Qed.

Lemma stays_lift {A} (r : exn + A) : stays R (lift r).
Proof. intros s. reflexivity. Qed.

Lemma stays_assert b msg : stays R (assert b msg).
Proof. destruct b; intros s; reflexivity. Qed.

Lemma stays_get_fs : stays R get_fs.
Proof. intros s. reflexivity. Qed.

Lemma stays_bind {A B} (m : M A) (k : A → M B) :
  stays R m → (∀ a, stays R (k a)) → stays R (m ≫= k).
Proof.
  intros Hm Hk s. rewrite run_bind. specialize (Hm s).
  destruct (m s) as [[e|a] s']; [done|].
  etrans; [exact Hm|apply Hk].
Qed.

Lemma stays_for_each {A} (xs : list A) (body : A → M unit) :
  (∀ x, stays R (body x)) → stays R (for_each xs body).
Proof.
  intros Hb. induction xs as [|x xs IH]; cbn [for_each].
  - apply stays_ret.
  - by apply stays_bind.
Qed.

Lemma stays_for_fold {A S} (xs : list A) (body : A → S → M S) acc :
  (∀ x acc, stays R (body x acc)) → stays R (for_fold xs body acc).
Proof.
  intros Hb. revert acc.
  induction xs as [|x xs IH]; intros acc; cbn [for_fold].
  - apply stays_ret.
  - by apply stays_bind.
Qed.

Lemma stays_py_mod a b : stays R (py_mod a b).
Proof. unfold py_mod. destruct (b =? 0); [apply stays_raise|apply stays_ret]. Qed.

Lemma stays_tuple_get t i : stays R (tuple_get t i).
Proof. unfold tuple_get. destruct (t !! i); [apply stays_ret|apply stays_raise]. Qed.

Lemma stays_os_path_exists path : stays R (os_path_exists path).
Proof.
  apply stays_bind; [apply stays_get_fs|]. intros fsys. apply stays_ret.
Qed.

End Stays.

(** *** The trace *)

Lemma extends_emit (Q : event → Prop) e : Q e → stays (extends Q) (emit e).
Proof. intros He s. exists [e]. split; [done|]. by constructor. Qed.

Lemma extends_draw {A} (Q : event → Prop) (f : generator → A * generator) e :
  Q e → stays (extends Q) (draw f e).
Proof.
  intros He s. exists [e]. unfold draw. destruct (f (rng s)).
  split; [done|]. by constructor.
Qed.

Lemma extends_manual_seed (Q : event → Prop) seed :
  Q (ManualSeed seed) → stays (extends Q) (torch_manual_seed seed).
Proof. intros He s. exists [ManualSeed seed]. split; [done|]. by constructor. Qed.

Lemma extends_write_file Q path f : stays (extends Q) (write_file path f).
Proof. intros s. exists []. by rewrite app_nil_r. Qed.

(** *** The file system *)

Lemma same_files_emit e : stays same_files (emit e).
Proof. done. Qed.

Lemma same_files_draw {A} (f : generator → A * generator) e :
  stays same_files (draw f e).
Proof. intros s. unfold draw. by destruct (f (rng s)). Qed.

Lemma same_files_manual_seed seed : stays same_files (torch_manual_seed seed).
Proof. done. Qed.

End Runs.

Create HintDb runs discriminated.

Global Hint Resolve stays_ret stays_raise stays_lift stays_assert stays_get_fs
  stays_bind stays_for_each stays_for_fold stays_py_mod stays_tuple_get
  stays_os_path_exists extends_emit extends_draw extends_manual_seed
  extends_write_file same_files_emit same_files_draw same_files_manual_seed
  : runs.

Global Hint Extern 1 (quiet _) => exact eq_refl : runs.
Global Hint Extern 1 (idle _) => exact eq_refl : runs.

(** Splits a run along the structure of the program. *)
Ltac run_auto :=
  repeat match goal with
  | |- stays _ (_ ≫= _) => apply stays_bind; [tc_solve| |intros ?]
  | |- stays _ (for_each _ _) =>
      apply stays_for_each; [tc_solve|intros ?; cbv beta]
  | |- stays _ (for_fold _ _ _) =>
      apply stays_for_fold; [tc_solve|intros ? ?; cbv beta]
  | |- stays _ (match ?x with _ => _ end) => destruct x
  | |- stays _ (let '(_, _) := ?x in _) => destruct x
  | |- _ => solve [auto with runs typeclass_instances]
  end.

(** Unfolds the operations of the monad. *)
Ltac run_unfold :=
  unfold mbind, M_bind, mret, M_ret, emit, raise, lift, get_fs, assert,
    write_file, draw in *.

(** ** Loading, the skip decision and the skip path *)

Section Phases.
Context `{Collaborators}.

Lemma same_files_open_json path : stays same_files (open_json path).
Proof. unfold open_json. run_auto. Qed.

Lemma extends_open_json Q path : stays (extends Q) (open_json path).
Proof. unfold open_json. run_auto. Qed.

Lemma same_files_setup_ddp a P : stays same_files (setup_ddp a P).
Proof. unfold setup_ddp, dist_init_process_group. run_auto. Qed.

Lemma extends_setup_ddp a P : stays (extends quiet) (setup_ddp a P).
Proof. unfold setup_ddp, dist_init_process_group. run_auto. Qed.

Lemma same_files_assemble c e t i : stays same_files (assemble c e t i).
Proof. unfold assemble. run_auto. Qed.

Lemma extends_assemble c e t i : stays (extends quiet) (assemble c e t i).
Proof. unfold assemble. run_auto. Qed.

Lemma same_files_load_all a P : stays same_files (load_all a P).
Proof.
  unfold load_all.
  pose proof same_files_setup_ddp. pose proof same_files_open_json.
  pose proof same_files_assemble. run_auto.
Qed.

Lemma extends_load_all a P : stays (extends quiet) (load_all a P).
Proof.
  unfold load_all.
  pose proof extends_setup_ddp. pose proof extends_open_json.
  pose proof extends_assemble. run_auto.
Qed.

Lemma load_all_inr a P s l s1 :
  load_all a P s = (inr l, s1) →
  cuda_available P = true ∧ device_count P ≠ 0 ∧
  s1 = State (fs s)
         (seed_generator (worker_seed (global_seed a) (rank P) (world_size P)))
         (trace s ++ loading_events a P) ∧
  l_exp_name l = basename (resolve_experiment a).1 ∧
  l_train_step_str l = zfill 7 (resolve_experiment a).2.
Proof.
  unfold load_all, setup_ddp, assert, dist_init_process_group, py_mod,
    torch_manual_seed, open_json, assemble, loading_events.
  destruct (resolve_experiment a) as [ep ts].
  unfold mbind, M_bind, mret, M_ret, emit, raise, lift, get_fs. cbn.
  destruct (cuda_available P); cbn; [|done].
  destruct (Z.eqb_spec (device_count P) 0); cbn; [done|].
  repeat (case_match; cbn in *; simplify_eq; try done).
  intros [= <- <-]. cbn. rewrite <- !(assoc_L (++)). done.
Qed.

(** The state after a successful loading phase. *)
Lemma load_all_run a P s l :
  (load_all a P s).1 = inr l →
  load_all a P s =
    (inr l, State (fs s)
              (seed_generator (worker_seed (global_seed a) (rank P) (world_size P)))
              (trace s ++ loading_events a P)).
Proof.
  destruct (load_all a P s) as [r s1] eqn:Hl. cbn. intros ->.
  by destruct (load_all_inr _ _ _ _ _ Hl) as (_ & _ & -> & _).
Qed.

(** Whether loading succeeds, and what it yields, does not depend on the
    rank: all workers of a group pass it, or none. *)
Lemma load_all_any_rank a P s l s1 P' s' :
  load_all a P s = (inr l, s1) →
  cuda_available P' = cuda_available P →
  device_count P' = device_count P →
  fs s' = fs s →
  load_all a P' s' =
    (inr l, State (fs s')
              (seed_generator (worker_seed (global_seed a) (rank P') (world_size P')))
              (trace s' ++ loading_events a P')).
Proof.
  unfold load_all, setup_ddp, dist_init_process_group, py_mod,
    torch_manual_seed, open_json, assemble, loading_events.
  intros Hl Hcuda Hdc Hfs. revert Hl. rewrite Hcuda, Hdc.
  destruct s as [fsys g tr], s' as [fsys' g' tr']. cbn in Hfs. subst fsys'.
  destruct (resolve_experiment a) as [ep ts].
  run_unfold. cbn.
  destruct (cuda_available P); cbn; [|done].
  destruct (Z.eqb_spec (device_count P) 0); cbn; [done|].
  repeat (case_match; cbn in *; simplify_eq; try done).
  intros [= <- <-]. cbn. rewrite <- !(assoc_L (++)). done.
Qed.

(** [main] once loading has succeeded and the guidance scale is accepted. *)
Lemma main_loaded a P s l s1 :
  load_all a P s = (inr l, s1) →
  float_ge (cfg_scale a) float_one = true →
  main a P s =
    (let dir := sample_folder_dir a (l_exp_name l) (l_train_step_str l) in
     skip ← decide_skip P dir; after_decision a P l dir skip) s1.
Proof.
  intros Hl Hcfg. unfold main. rewrite run_bind, Hl. cbv beta iota.
  rewrite Hcfg. reflexivity.
Qed.

(** The decision of rank 0 is whether the archive exists; the other ranks
    do not look. *)
Lemma decide_skip_archived P dir s :
  rank P = 0 → is_Some (fs s !! npz_path dir) →
  decide_skip P dir s = (inr true, s).
Proof.
  intros Hr [f Hf]. unfold decide_skip, os_path_exists. rewrite Hr.
  run_unfold. cbn. by rewrite Hf.
Qed.

Lemma decide_skip_other_rank P dir s :
  rank P ≠ 0 → decide_skip P dir s = (inr false, s).
Proof.
  intros Hr. unfold decide_skip. by destruct (Z.eqb_spec (rank P) 0).
Qed.

Lemma decide_skip_flag P dir s flag s' :
  rank P = 0 → decide_skip P dir s = (inr flag, s') →
  flag = bool_decide (is_Some (fs s !! npz_path dir)).
Proof.
  intros Hr. unfold decide_skip, os_path_exists, os_makedirs. rewrite Hr.
  run_unfold. cbn. destruct (fs s !! npz_path dir) as [f|] eqn:Hf; cbn.
  - by intros [= <- <-].
  - repeat (case_match; cbn in *; simplify_eq; try done).
    all: by intros [= <- <-].
Qed.

(** The skip path: the flag is broadcast and the group is destroyed. *)
Lemma after_decision_skip a P l dir skip s :
  (if rank P =? 0 then skip else recv_skip P) = true →
  after_decision a P l dir skip s =
    (inr (), State (fs s) (rng s)
               (trace s ++ [Broadcast true; DestroyProcessGroup])).
Proof.
  intros Hflag. unfold after_decision, dist_broadcast,
    dist_destroy_process_group. rewrite Hflag.
  run_unfold. cbn. by rewrite <- (assoc_L (++)).
Qed.

Lemma main_skips a P s l s1 :
  load_all a P s = (inr l, s1) →
  float_ge (cfg_scale a) float_one = true →
  is_Some (fs s !! npz_path
             (sample_folder_dir a (l_exp_name l) (l_train_step_str l))) →
  (rank P ≠ 0 → recv_skip P = true) →
  main a P s =
    (inr (), State (fs s) (rng s1)
               (trace s ++ loading_events a P
                  ++ [Broadcast true; DestroyProcessGroup])).
Proof.
  intros Hl Hcfg Hnpz Hrecv. rewrite (main_loaded _ _ _ _ _ Hl Hcfg).
  destruct (load_all_inr _ _ _ _ _ Hl) as (_ & _ & -> & _). cbn zeta.
  rewrite run_bind. destruct (decide (rank P = 0)) as [Hr|Hr].
  - rewrite decide_skip_archived by done.
    rewrite after_decision_skip by (by rewrite Hr).
    cbn. by rewrite <- (assoc_L (++)).
  - rewrite decide_skip_other_rank by done.
    rewrite after_decision_skip.
    + cbn. by rewrite <- (assoc_L (++)).
    + destruct (Z.eqb_spec (rank P) 0); [done|]. by apply Hrecv.
Qed.

End Phases.

(** ** The trace of the later phases *)

Global Hint Extern 1 (any _) => exact I : runs.

Section Later.
Context `{Collaborators}.

Lemma grows_image_save path sample : stays (extends any) (image_save path sample).
Proof. unfold image_save. run_auto. Qed.

Lemma grows_image_open path : stays (extends any) (image_open path).
Proof. unfold image_open. run_auto. Qed.

Lemma grows_np_savez path samples : stays (extends any) (np_savez path samples).
Proof. unfold np_savez. run_auto. Qed.

Lemma grows_run_sampler a kw : stays (extends any) (run_sampler a kw).
Proof. unfold run_sampler. run_auto. Qed.

Lemma grows_sampling_iteration a P c m ls ic dir n g total :
  stays (extends any) (sampling_iteration a P c m ls ic dir n g total).
Proof.
  unfold sampling_iteration, torch_randn, torch_randint.
  pose proof grows_image_save. pose proof grows_run_sampler. run_auto.
Qed.

Lemma grows_sample_all a P c m ls ic dir :
  stays (extends any) (sample_all a P c m ls ic dir).
Proof.
  unfold sample_all. pose proof grows_sampling_iteration. run_auto.
Qed.

Lemma grows_create_npz dir num :
  stays (extends any) (create_npz_from_sample_folder dir num).
Proof.
  unfold create_npz_from_sample_folder.
  pose proof grows_image_open. pose proof grows_np_savez. run_auto.
Qed.

Lemma grows_finish a P dir : stays (extends any) (finish a P dir).
Proof.
  unfold finish, dist_barrier, dist_destroy_process_group.
  pose proof grows_create_npz. run_auto.
Qed.

(** The first thing that happens after the decision is the broadcast. *)
Lemma after_decision_broadcast a P l dir skip s :
  ∃ rest,
    trace (after_decision a P l dir skip s).2 =
    trace s ++ Broadcast (if rank P =? 0 then skip else recv_skip P) :: rest.
Proof.
  unfold after_decision, dist_broadcast.
  set (flag := if rank P =? 0 then skip else recv_skip P).
  assert (∀ k : bool → M unit, stays (extends any) (k flag) →
    ∃ rest, trace (((emit (Broadcast flag);; mret flag) ≫= k) s).2
            = trace s ++ Broadcast flag :: rest) as Hk.
  { intros k Hk. rewrite !run_bind. cbn.
    destruct (Hk (State (fs s) (rng s) (trace s ++ [Broadcast flag])))
      as (rest & Hrest & _).
    exists rest. rewrite Hrest. cbn. by rewrite <- (assoc_L (++)). }
  apply Hk. unfold dist_destroy_process_group, dist_barrier.
  pose proof grows_sample_all. pose proof grows_finish. run_auto.
Qed.

End Later.

(** ** The skip decision in a group *)

Section Skip.
Context `{Collaborators}.

Lemma decide_skip_trace P dir s flag s' :
  decide_skip P dir s = (inr flag, s') →
  trace s' = trace s ++ (if flag || negb (rank P =? 0) then []
                         else [Makedirs dir]).
Proof.
  unfold decide_skip, os_path_exists, os_makedirs. run_unfold. cbn.
  repeat (case_match; cbn in *; simplify_eq; try done);
    intros [= <- <-]; cbn; by rewrite ?app_nil_r.
Qed.

Lemma extends_decide_skip P dir : stays (extends quiet) (decide_skip P dir).
Proof. unfold decide_skip, os_makedirs. run_auto. Qed.

(** If one worker gets through loading, rank 0 does, with the same
    result. *)
Lemma load_all_rank0 a G r flag l s1 :
  load_all a (member G r flag) (init_state G r) = (inr l, s1) →
  load_all a (member G 0 false) (init_state G 0) =
    (inr l, State (g_fs G)
              (seed_generator (worker_seed (global_seed a) 0 (g_world_size G)))
              (loading_events a (member G 0 false))).
Proof.
  intros Hl.
  rewrite (load_all_any_rank _ _ _ _ _ (member G 0 false) (init_state G 0) Hl);
    reflexivity.
Qed.

(** Rank 0 broadcasts whether the archive exists. *)
Lemma flag_of_rank0_archived a G r flag l s1 :
  load_all a (member G r flag) (init_state G r) = (inr l, s1) →
  float_ge (cfg_scale a) float_one = true →
  flag_of_rank0 a G =
    bool_decide (is_Some (g_fs G !! npz_path
      (sample_folder_dir a (l_exp_name l) (l_train_step_str l)))).
Proof.
  intros Hl Hcfg. apply load_all_rank0 in Hl. unfold flag_of_rank0.
  rewrite (main_loaded _ _ _ _ _ Hl Hcfg). cbn zeta. rewrite run_bind.
  set (dir := sample_folder_dir a (l_exp_name l) (l_train_step_str l)).
  set (s0 := State _ _ _).
  destruct (decide_skip (member G 0 false) dir s0) as [[e|skip] s2] eqn:Hd.
  - (* [os.makedirs] failed: nothing is broadcast, and there is no archive *)
    cbn. destruct (extends_decide_skip (member G 0 false) dir s0)
      as (tr & Htr & Hq).
    rewrite Hd in Htr. cbn in Htr. rewrite Htr.
    apply quiet_trace in Hq as (Hb & _).
    unfold broadcast_flags in *. cbn. rewrite Hb. cbn.
    destruct (g_fs G !! npz_path dir) as [f|] eqn:Hf; [|done].
    rewrite decide_skip_archived in Hd; [done|done|]. cbn. rewrite Hf. eauto.
  - pose proof (decide_skip_flag (member G 0 false) _ _ _ _ eq_refl Hd) as ->.
    pose proof (decide_skip_trace _ _ _ _ _ Hd) as Htr.
    destruct (after_decision_broadcast a (member G 0 false) l dir
      (bool_decide (is_Some (fs s0 !! npz_path dir))) s2) as (rest & ->).
    rewrite Htr. unfold broadcast_flags. rewrite !omap_app. cbn.
    by destruct (bool_decide _).
Qed.

(** In a group whose archive exists every worker takes the skip path. *)
Lemma run_worker_skips a G r0 flag l s1 r :
  load_all a (member G r0 flag) (init_state G r0) = (inr l, s1) →
  float_ge (cfg_scale a) float_one = true →
  is_Some (g_fs G !! npz_path
             (sample_folder_dir a (l_exp_name l) (l_train_step_str l))) →
  run_worker a G r =
    (inr (),
     State (g_fs G)
       (seed_generator (worker_seed (global_seed a) r (g_world_size G)))
       [InitProcessGroup;
        ManualSeed (worker_seed (global_seed a) r (g_world_size G));
        SetDevice (r mod g_device_count G);
        LoadModels; Broadcast true; DestroyProcessGroup]).
Proof.
  intros Hl Hcfg Hnpz. unfold run_worker.
  pose proof (flag_of_rank0_archived _ _ _ _ _ _ Hl Hcfg) as Hflag.
  rewrite bool_decide_eq_true_2 in Hflag by done.
  pose proof (load_all_any_rank _ _ _ _ _
    (member G r (flag_of_rank0 a G)) (init_state G r) Hl eq_refl eq_refl eq_refl)
    as Hl'.
  by rewrite (main_skips _ _ _ _ _ Hl' Hcfg Hnpz).
Qed.

End Skip.

(** ** The guidance scale *)

Lemma float_lt_one_not_ge x :
  SFltb x float_one = true → float_ge x float_one = false.
Proof.
  unfold float_ge, SFleb, SFltb, float_one.
  generalize 4503599627370496%positive as m1. generalize (-52) as e1.
  intros e1 m1.
  destruct x as [sx|sx| |sx m e]; cbv beta iota delta [SFcompare]; try done.
  - by destruct sx.
  - destruct sx; [done|].
    rewrite (Z.compare_antisym e e1).
    destruct (e ?= e1) eqn:He; cbv beta iota delta [CompOpp]; try done.
    rewrite <- (Pos.compare_cont_antisym _ _ Eq).
    by destruct (Pos.compare_cont Eq m1 m).
Qed.

(** ** The claims on the skip path and on the guidance scale *)

Section Claims.
Context `{Collaborators}.



(** C7.  A run with a guidance scale below 1.0 ends with an exception
    before anything is sampled: its trace holds loading events only and
    the file system is untouched; and when loading succeeds the exception
    is the assertion on [cfg_scale], raised right after loading. *)
Theorem low_cfg_scale_rejected a P s :
  SFltb (cfg_scale a) float_one = true →
  ∃ e tr,
    (main a P s).1 = inl e ∧
    fs (main a P s).2 = fs s ∧
    trace (main a P s).2 = trace s ++ tr ∧
    Forall quiet tr ∧
    filter (λ e, is_sampling e = true) tr = [] ∧
    saved_paths tr = [] ∧
    (∀ l, (load_all a P s).1 = inr l →
       e = AssertionError "cfg_scale should be >= 1.0" ∧
       tr = loading_events a P).
Proof.
  intros Hcfg%float_lt_one_not_ge.
  pose proof (same_files_load_all a P s) as Hfs.
  destruct (extends_load_all a P s) as (tr & Htr & Hq).
  pose proof (quiet_trace tr Hq) as (_ & ? & _ & ? & _).
  unfold main. rewrite run_bind.
  destruct (load_all a P s) as [[e|l] s1] eqn:Hl.
  - exists e, tr. by split_and!.
  - exists (AssertionError "cfg_scale should be >= 1.0"), tr.
    rewrite Hcfg. cbn. split_and!; try done.
    intros l' _. split; [done|].
    destruct (load_all_inr _ _ _ _ _ Hl) as (_ & _ & -> & _).
    cbn in Htr. by apply app_inv_head in Htr.
Qed.

End Claims.

(** ** The archive builder *)

Section Archive.
Context `{Collaborators}.

Lemma opened_paths_open_events dir ys :
  opened_paths (open_events dir ys) = png_path dir <$> ys.
Proof.
  unfold opened_paths, open_events. induction ys as [|y ys IH]; [done|].
  cbn. by rewrite IH.
Qed.

(** A prefix of [range n] is a shorter range. *)
Lemma prefix_range ys n :
  ys `prefix_of` range n → ∃ k, 0 ≤ k ≤ Z.max 0 n ∧ ys = range k.
Proof.
  intros [rest Hrest]. exists (Z.of_nat (length ys)).
  assert (length (range n) = (length ys + length rest)%nat) as Hlen
    by (by rewrite Hrest, length_app).
  unfold range in *. rewrite length_seqZ in Hlen. split; [lia|].
  destruct (Z.le_gt_cases 0 n).
  - replace n with (Z.of_nat (length ys) + Z.of_nat (length rest)) in Hrest
      by lia.
    rewrite seqZ_app in Hrest by lia.
    apply app_inj_1 in Hrest as [? _]; [done|].
    rewrite length_seqZ. lia.
  - rewrite seqZ_nil in Hrest by lia. by destruct ys.
Qed.

(** The reading loop of lines 40-43: it opens the files in the order of
    the list, stops at the first one that is not an image, and leaves the
    file system as it is. *)
Lemma read_loop dir xs acc s :
  let body := λ (i : Z) (samples : list ndarray),
    sample_np ← image_open (png_path dir i); mret (samples ++ [sample_np]) in
  let run := for_fold xs body acc s in
  ∃ ys, ys `prefix_of` xs ∧
    run.2 = State (fs s) (rng s) (trace s ++ open_events dir ys) ∧
    match run.1 with
    | inr samples =>
        ys = xs ∧ length samples = (length acc + length xs)%nat ∧
        ∀ x, x ∈ xs → ∃ img, fs s !! png_path dir x = Some (PngFile img)
    | inl e => ∃ x, x ∈ xs ∧ ∀ img, fs s !! png_path dir x ≠ Some (PngFile img)
    end.
Proof.
  intros body run. subst run. revert acc s.
  induction xs as [|x xs IH]; intros acc s.
  - exists []. cbn. rewrite app_nil_r. split_and!; try done.
    all: try (by destruct s). all: try (by intros x ?%elem_of_nil).
  - cbn [for_fold]. rewrite run_bind.
    destruct (body x acc s) as [[e|samples] s1] eqn:Hb.
    + exists []. split; [apply prefix_nil|]. cbn. rewrite app_nil_r.
      revert Hb. unfold body, image_open. run_unfold. cbn.
      destruct (fs s !! png_path dir x) as [[]|] eqn:Hx; cbn;
        intros [= <- <-]; (split; [by destruct s|]);
        exists x; (split; [by left|]); by rewrite Hx.
    + assert (∃ img, fs s !! png_path dir x = Some (PngFile img) ∧
                samples = acc ++ [img] ∧
                s1 = State (fs s) (rng s) (trace s ++ [OpenPng (png_path dir x)]))
        as (img & Hx & -> & ->).
      { revert Hb. unfold body, image_open. run_unfold. cbn.
        destruct (fs s !! png_path dir x) as [[]|]; cbn; try done.
        intros [= <- <-]. eauto. }
      destruct (IH (acc ++ [img])
        (State (fs s) (rng s) (trace s ++ [OpenPng (png_path dir x)])))
        as (ys & Hys & Hrun & Hres).
      exists (x :: ys). split; [by apply prefix_cons|].
      split.
      { rewrite Hrun. cbn. by rewrite <- (assoc_L (++)). }
      cbn [fs] in Hres. destruct (for_fold xs body _ _).1 as [e|samples'].
      * destruct Hres as (x' & ? & ?). exists x'. split; [by right|done].
      * destruct Hres as (-> & Hlen & Hall). split_and!; [done| |].
        -- rewrite Hlen, length_app. cbn. lia.
        -- intros x' [->|?]%elem_of_cons; eauto.
Qed.

Lemma np_stack_inr arrays arr :
  np_stack arrays = inr arr →
  ∃ a, head arrays = Some a ∧
       shape arr = Z.of_nat (length arrays) :: shape a.
Proof.
  unfold np_stack. destruct arrays as [|a rest]; [done|].
  case_match; [|done]. intros [= <-]. by exists a.
Qed.

(** The archive builder: either it ends with an exception after reading
    the images at the indices below some [k], and has written nothing; or
    it has read the images at all indices below [num], in increasing
    order, and has written the archive of shape [(num, h, w, 3)]. *)
Lemma create_npz_spec dir num s :
  let run := create_npz_from_sample_folder dir num s in
  match run.1 with
  | inl e =>
      ∃ k, 0 ≤ k ≤ Z.max 0 num ∧
        run.2 = State (fs s) (rng s) (trace s ++ open_events dir (range k))
  | inr path =>
      path = npz_path dir ∧ 1 ≤ num ∧
      (∀ i, 0 ≤ i < num → ∃ img, fs s !! png_path dir i = Some (PngFile img)) ∧
      ∃ arr h w,
        shape arr = [num; h; w; 3] ∧
        run.2 = State (<[npz_path dir := NpzFile arr]> (fs s)) (rng s)
                  (trace s ++ open_events dir (range num)
                     ++ [SaveNpz (npz_path dir)])
  end.
Proof.
  intros run. subst run. unfold create_npz_from_sample_folder.
  rewrite run_bind.
  destruct (read_loop dir (range num) [] s) as (ys & Hys & Hrun & Hres).
  cbv zeta in Hrun, Hres.
  destruct (for_fold (range num) _ [] s) as [[e|samples] s1]; cbn in Hrun, Hres.
  - cbn. apply prefix_range in Hys as (k & Hk & ->). eauto.
  - destruct Hres as (-> & Hlen & Hall). subst s1.
    assert (∃ k, 0 ≤ k ≤ Z.max 0 num ∧
           State (fs s) (rng s) (trace s ++ open_events dir (range num)) =
           State (fs s) (rng s) (trace s ++ open_events dir (range k))) as Hfail.
    { destruct (Z.le_gt_cases 0 num).
      - exists num. split; [lia|done].
      - exists 0. split; [lia|]. unfold range. by rewrite !seqZ_nil by lia. }
    unfold np_savez, tuple_get. run_unfold. cbn.
    destruct (np_stack samples) as [e|arr] eqn:Hstack; cbn; [done|].
    apply np_stack_inr in Hstack as (a0 & Ha0 & Hshape).
    assert (Z.of_nat (length samples) = Z.max 0 num) as Hnum.
    { rewrite Hlen. unfold range. rewrite length_seqZ. cbn. lia. }
    destruct (shape arr !! 1%nat) as [h|] eqn:Hh; cbn; [|done].
    destruct (shape arr !! 2%nat) as [w|] eqn:Hw; cbn; [|done].
    case_bool_decide as Hsh; cbn; [|done].
    assert (1 ≤ num).
    { destruct samples; [done|]. cbn in Hnum. lia. }
    split_and!; [done|done| |].
    + intros i Hi. apply Hall. unfold range. apply elem_of_seqZ. lia.
    + exists arr, h, w. split; [done|]. by rewrite <- (assoc_L (++)).
Qed.

(** A missing image is fatal. *)
Lemma create_npz_missing dir num s i :
  0 ≤ i < num → fs s !! png_path dir i = None →
  ∃ e, (create_npz_from_sample_folder dir num s).1 = inl e.
Proof.
  intros Hi Hnone. pose proof (create_npz_spec dir num s) as Hspec.
  cbv zeta in Hspec.
  destruct (create_npz_from_sample_folder dir num s).1 as [e|path]; [eauto|].
  destruct Hspec as (_ & _ & Hall & _).
  destruct (Hall i Hi) as [img Himg]. congruence.
Qed.

Lemma finish_rank0 a P dir s :
  rank P = 0 →
  finish a P dir s =
    match create_npz_from_sample_folder dir (num_fid_samples a)
            (State (fs s) (rng s) (trace s ++ [Barrier])) with
    | (inl e, s') => (inl e, s')
    | (inr _, s') =>
        (inr (), State (fs s') (rng s')
                   (trace s' ++ [Barrier; DestroyProcessGroup]))
    end.
Proof.
  intros Hr. unfold finish, dist_barrier, dist_destroy_process_group.
  rewrite Hr. cbn [Z.eqb]. run_unfold. cbn.
  destruct (create_npz_from_sample_folder _ _ _) as [[e|path] s']; [done|].
  cbn. by rewrite <- (assoc_L (++)).
Qed.


End Archive.

(** ** The sampling loop *)

Section Sampling.
Context `{Collaborators}.

(** With Heun's method asked for in a mode other than ["ode"], an
    iteration draws its noise and its labels and then fails the
    assertion of line 182. *)
Lemma sampling_iteration_heun a P c m ls ic dir n g total s :
  heun a = true → String.eqb (mode a) "ode" = false →
  sampling_iteration a P c m ls ic dir n g total s =
    (inl (AssertionError "Heun's method is only available for ODE sampling."),
     State (fs s) (after_draws c ls ic n (rng s))
       (trace s ++ [DrawNoise n; DrawLabels n])).
Proof.
  intros Hheun Hmode.
  unfold sampling_iteration, torch_randn, torch_randint, after_draws.
  rewrite Hheun, Hmode. run_unfold. cbn.
  destruct (randn (rng s) n ic ls) as [z g1]. cbn.
  destruct (randint g1 (num_classes c) n) as [y g2]. cbn.
  by rewrite <- (assoc_L (++)).
Qed.

Lemma range_cons k : 1 ≤ k → range k = 0 :: seqZ 1 (k - 1).
Proof.
  intros Hk. unfold range. rewrite seqZ_cons by lia. f_equal.
Qed.

Lemma sample_all_heun a P c m ls ic dir p s :
  heun a = true → String.eqb (mode a) "ode" = false →
  batch_plan (num_fid_samples a) (pproc_batch_size a) (world_size P) = inr p →
  1 ≤ iterations p →
  sample_all a P c m ls ic dir s =
    (inl (AssertionError "Heun's method is only available for ODE sampling."),
     State (fs s) (after_draws c ls ic (pproc_batch_size a) (rng s))
       (trace s ++ [DrawNoise (pproc_batch_size a);
                    DrawLabels (pproc_batch_size a)])).
Proof.
  intros Hheun Hmode Hplan Hit. unfold sample_all. rewrite Hplan.
  rewrite run_bind. unfold lift at 1. cbv beta iota.
  rewrite range_cons by done. cbn [for_fold].
  rewrite !run_bind. by rewrite sampling_iteration_heun.
Qed.

(** Without the skip flag the workers meet at the barrier and sample. *)
Lemma after_decision_sample a P l dir skip s :
  (if rank P =? 0 then skip else recv_skip P) = false →
  after_decision a P l dir skip s =
    (sample_all a P (l_config l) (l_models l) (l_latent_size l)
       (l_in_channels l) dir;; finish a P dir)
      (State (fs s) (rng s) (trace s ++ [Broadcast false; Barrier])).
Proof.
  intros Hflag. unfold after_decision, dist_broadcast, dist_barrier.
  rewrite Hflag.
  replace (trace s ++ [Broadcast false; Barrier])
    with ((trace s ++ [Broadcast false]) ++ [Barrier])
    by (by rewrite <- (assoc_L (++))).
  reflexivity.
Qed.

(** Without an archive rank 0 makes sure the sample folder exists; the
    other ranks decide nothing. *)
Lemma decide_skip_not_archived P dir s :
  (rank P = 0 →
     fs s !! npz_path dir = None ∧
     (fs s !! dir = None ∨ fs s !! dir = Some Directory)) →
  decide_skip P dir s =
    (inr false,
     State (if rank P =? 0 then <[dir := Directory]> (fs s) else fs s)
       (rng s)
       (trace s ++ (if rank P =? 0 then [Makedirs dir] else []))).
Proof.
  intros Hfs. unfold decide_skip, os_path_exists, os_makedirs.
  destruct (Z.eqb_spec (rank P) 0) as [Hr|Hr].
  - destruct (Hfs Hr) as (Hnpz & Hdir). run_unfold. cbn. rewrite Hnpz.
    destruct Hdir as [-> | Hdir]; [done|]. rewrite Hdir. cbn.
    by rewrite insert_id.
  - cbn. rewrite app_nil_r. by destruct s.
Qed.

(** With Heun's method asked for in a mode other than ["ode"] no part of
    [main] invokes a sampler or saves an image. *)
Lemma quiet_idle e : quiet e → idle e.
Proof. by destruct e. Qed.

Lemma idle_sample_all_heun a P c m ls ic dir :
  heun a = true → String.eqb (mode a) "ode" = false →
  stays (extends idle) (sample_all a P c m ls ic dir).
Proof.
  intros Hheun Hmode. unfold sample_all.
  assert (∀ n g total,
    stays (extends idle) (sampling_iteration a P c m ls ic dir n g total)).
  { intros n g total s. rewrite sampling_iteration_heun by done. cbn.
    exists [DrawNoise n; DrawLabels n]. split; [done|]. by repeat constructor. }
  run_auto.
Qed.

Lemma idle_finish a P dir : stays (extends idle) (finish a P dir).
Proof.
  unfold finish, dist_barrier, dist_destroy_process_group,
    create_npz_from_sample_folder, image_open, np_savez.
  run_auto.
Qed.

Lemma idle_main_heun a P :
  heun a = true → String.eqb (mode a) "ode" = false →
  stays (extends idle) (main a P).
Proof.
  intros Hheun Hmode.
  assert (stays (extends idle) (load_all a P)).
  { intros s. eapply extends_weaken; [apply quiet_idle|apply extends_load_all]. }
  assert (∀ dir, stays (extends idle) (decide_skip P dir)).
  { intros dir s.
    eapply extends_weaken; [apply quiet_idle|apply extends_decide_skip]. }
  pose proof (idle_sample_all_heun a P) as Hs. pose proof (idle_finish a P).
  unfold main, after_decision, dist_broadcast, dist_barrier,
    dist_destroy_process_group.
  run_auto.
Qed.


(** *** A successful loop saves at the planned indices *)

Lemma saved_paths_save_events dir indices :
  saved_paths (save_events dir indices) = png_path dir <$> indices.
Proof.
  unfold saved_paths, save_events. induction indices as [|i l IH]; [done|].
  cbn. by rewrite IH.
Qed.

(** Lines 211-213. *)
Lemma save_loop dir ws r total (samples : list (Z * ndarray)) s :
  ∃ fsys,
    for_each samples (λ '(i, sample),
      image_save (png_path dir (sample_index i ws r total)) sample) s =
    (inr (), State fsys (rng s)
               (trace s ++ save_events dir
                  ((λ i, sample_index i ws r total) <$> samples.*1))).
Proof.
  revert s. induction samples as [|[i sample] rest IH]; intros s.
  - exists (fs s). cbn. rewrite app_nil_r. by destruct s.
  - cbn [for_each]. rewrite run_bind. unfold image_save at 1.
    run_unfold. cbn.
    edestruct IH as (fsys & ->). exists fsys. cbn.
    by rewrite <- (assoc_L (++)).
Qed.

Lemma enumerate_indices {A} (xs : list A) :
  (enumerate xs).*1 = range (Z.of_nat (length xs)).
Proof.
  unfold enumerate. apply fst_zip. unfold range. rewrite length_seqZ. lia.
Qed.

Context `{!BatchPreserving}.

(** An iteration that passes the checks of lines 182 and 197-202 saves one
    image at each index of its batch. *)
Lemma sampling_iteration_saves a P c m ls ic dir n g total s :
  negb (heun a) || String.eqb (mode a) "ode" = true →
  String.eqb (mode a) "sde" || String.eqb (mode a) "ode" = true →
  ∃ s', sampling_iteration a P c m ls ic dir n g total s = (inr (total + g), s') ∧
    saved_paths (trace s') =
      saved_paths (trace s)
      ++ (png_path dir <$> batch_indices n (world_size P) (rank P) total).
Proof.
  intros Hheun Hmode.
  unfold sampling_iteration, torch_randn, torch_randint, run_sampler.
  rewrite Hheun. run_unfold. cbn.
  pose proof (randn_batch (rng s) n ic ls) as Hz.
  destruct (randn (rng s) n ic ls) as [z g1]. cbn in Hz |- *.
  destruct (randint g1 (num_classes c) n) as [y g2]. cbn.
  set (kw := SamplingKwargs _ _ _ _ _ _ _ _ _ _ _).
  assert (∀ (t : tensor) s0, batch_size t = n →
    ∃ s', (for_each (enumerate (decode_uint8 m t))
             (λ '(i, sample), image_save
                (png_path dir (sample_index i (world_size P) (rank P) total))
                sample) s0) = (inr (), s') ∧
          saved_paths (trace s') = saved_paths (trace s0)
            ++ (png_path dir <$> batch_indices n (world_size P) (rank P) total))
    as Hsave.
  { intros t s0 Ht.
    edestruct (save_loop dir (world_size P) (rank P) total) as (fsys & ->).
    eexists. split; [done|]. cbn. unfold saved_paths at 1.
    rewrite omap_app. fold (saved_paths (trace s0)). f_equal.
    fold (saved_paths (save_events dir ((λ i, sample_index i (world_size P) (rank P) total)
            <$> (enumerate (decode_uint8 m t)).*1))).
    rewrite saved_paths_save_events, enumerate_indices, decode_batch, Ht.
    unfold batch_indices, range.
    destruct (Z.le_gt_cases 0 n).
    - by rewrite Z2Nat.id by done.
    - replace (Z.to_nat n) with 0%nat by lia. by rewrite !seqZ_nil by lia. }
  destruct (String.eqb (mode a) "sde") eqn:Hsde; cbn.
  - pose proof (euler_maruyama_batch kw g2) as Hb.
    destruct (euler_maruyama_sampler kw g2) as [t g3]. cbn in Hb |- *.
    edestruct (Hsave t) as (s' & -> & Hs'); [by rewrite Hb|].
    eexists. split; [done|]. rewrite Hs'. cbn.
    unfold saved_paths. rewrite !omap_app. cbn. by rewrite !app_nil_r.
  - cbn in Hmode. rewrite Hmode. cbn.
    edestruct (Hsave (euler_sampler kw)) as (s' & -> & Hs');
      [by rewrite euler_batch|].
    eexists. split; [done|]. rewrite Hs'. cbn.
    unfold saved_paths. rewrite !omap_app. cbn. by rewrite !app_nil_r.
Qed.

Lemma sampling_loop_saves {X} a P c m ls ic dir n (xs : list X) total s :
  negb (heun a) || String.eqb (mode a) "ode" = true →
  String.eqb (mode a) "sde" || String.eqb (mode a) "ode" = true →
  ∃ s',
    for_fold xs (λ _ total,
      sampling_iteration a P c m ls ic dir n (n * world_size P) total) total s
    = (inr (total + Z.of_nat (length xs) * (n * world_size P)), s') ∧
    saved_paths (trace s') =
      saved_paths (trace s)
      ++ (png_path dir <$>
            loop_indices (length xs) n (world_size P) (rank P) total).
Proof.
  intros Hheun Hmode. revert total s.
  induction xs as [|x xs IH]; intros total s.
  - exists s. cbn. rewrite app_nil_r. split; [|done].
    unfold mret, M_ret. do 2 f_equal. lia.
  - cbn [for_fold]. rewrite run_bind.
    destruct (sampling_iteration_saves a P c m ls ic dir n
      (n * world_size P) total s Hheun Hmode) as (s1 & -> & Hs1).
    destruct (IH (total + n * world_size P) s1) as (s' & -> & Hs').
    exists s'. split.
    + do 2 f_equal. cbn [length]. lia.
    + rewrite Hs', Hs1. cbn [length loop_indices].
      by rewrite fmap_app, (assoc_L (++)).
Qed.

(** The images one worker saves are those at its indices, in the order of
    the loop. *)
Lemma sample_all_saves a P c m ls ic dir p s :
  negb (heun a) || String.eqb (mode a) "ode" = true →
  String.eqb (mode a) "sde" || String.eqb (mode a) "ode" = true →
  pproc_batch_size a ≠ 0 → world_size P ≠ 0 →
  batch_plan (num_fid_samples a) (pproc_batch_size a) (world_size P) = inr p →
  ∃ s', sample_all a P c m ls ic dir s = (inr (), s') ∧
    saved_paths (trace s') =
      saved_paths (trace s)
      ++ (png_path dir <$>
            worker_indices p (pproc_batch_size a) (world_size P) (rank P)).
Proof.
  intros Hheun Hmode Hn Hw Hplan. unfold sample_all. rewrite Hplan.
  rewrite run_bind. unfold lift at 1. cbv beta iota.
  destruct (batch_plan_inr _ _ _ _ Hn Hw Hplan) as (-> & _).
  rewrite run_bind.
  destruct (sampling_loop_saves a P c m ls ic dir (pproc_batch_size a)
    (range (iterations p)) 0 s Hheun Hmode) as (s' & -> & Hs').
  exists s'. split; [done|]. rewrite Hs'. unfold worker_indices, range.
  by rewrite length_seqZ.
Qed.

End Sampling.

(** ** The claims on the planner, the indices and the seed *)


(** C2, at an input where the code departs from it.  For a request of
    [2 ^ 53 + 1] samples with batches of one on one worker, the quotient of
    line 165 is rounded down to [2 ^ 53]: the planned total is below the
    request. *)
Theorem batch_plan_below_request :
  batch_plan (2 ^ 53 + 1) 1 1 = inr (SamplePlan 1 (2 ^ 53) (2 ^ 53) (2 ^ 53)) ∧
  2 ^ 53 < 2 ^ 53 + 1.
Proof. split; [vm_compute; reflexivity|lia]. Qed.

(** The ceiling of the quotient on small and on large operands. *)
Example ceil_true_divide_100_40 : ceil_true_divide 100 40 = inr 3.
Proof. reflexivity. Qed.

Example ceil_true_divide_120_40 : ceil_true_divide 120 40 = inr 3.
Proof. reflexivity. Qed.

Example ceil_true_divide_negative : ceil_true_divide (-7) 2 = inr (-3).
Proof. reflexivity. Qed.

Example ceil_true_divide_rounds_down :
  ceil_true_divide (2 ^ 53 + 1) 1 = inr (2 ^ 53).
Proof. vm_compute. reflexivity. Qed.

Example ceil_true_divide_overflow :
  ceil_true_divide (2 ^ 1030) 1 = inl OverflowError.
Proof. vm_compute. reflexivity. Qed.

Example ceil_true_divide_underflow : ceil_true_divide 1 (2 ^ 1080) = inr 0.
Proof. vm_compute. reflexivity. Qed.

(** The scenario of the specification. *)
Example batch_plan_100_10_4 :
  batch_plan 100 10 4 = inr (SamplePlan 40 120 30 3).
Proof. reflexivity. Qed.

(** The division of line 165 raises nothing but the two arithmetic errors. *)
Lemma ceil_true_divide_inl a b e :
  ceil_true_divide a b = inl e → e = ZeroDivisionError ∨ e = OverflowError.
Proof.
  unfold ceil_true_divide, PyFloat.true_divide.
  repeat case_match; simplify_eq; intros [= <-]; auto.
Qed.

(** C9.  With at least one requested sample, a batch size of at least one
    and at least one worker, the total computed with the exact ceiling is
    divisible by the group size and the share of a worker by the batch
    size; the same holds for whatever integer line 165 computes, so that
    the planner never ends with one of the two assertion errors. *)
Theorem divisibility_assertions_never_fire requested n world_size :
  1 ≤ requested → 1 ≤ n → 1 ≤ world_size →
  let total := exact_ceil_div requested (n * world_size) * (n * world_size) in
  total mod world_size = 0 ∧
  (total / world_size) mod n = 0 ∧
  (∀ c, ceil_true_divide requested (n * world_size) = inr c →
     (c * (n * world_size)) mod world_size = 0 ∧
     (c * (n * world_size) / world_size) mod n = 0) ∧
  (∀ msg, batch_plan requested n world_size ≠ inl (AssertionError msg)).
Proof.
  intros _ Hn Hw total.
  assert (∀ c, (c * (n * world_size)) mod world_size = 0 ∧
               (c * (n * world_size) / world_size) mod n = 0) as Hdiv.
  { intros c. rewrite Z.mul_assoc, Z_mod_mult, Z.div_mul by lia.
    by rewrite Z_mod_mult. }
  split_and!; try apply Hdiv.
  - intros c _. apply Hdiv.
  - intros msg. rewrite batch_plan_unfold by lia.
    destruct (ceil_true_divide requested (n * world_size)) as [e|c] eqn:Hc;
      [|done].
    apply ceil_true_divide_inl in Hc as [-> | ->]; done.
Qed.

(** C10.  With one worker the seeds [2 * k] and [2 * k + 1] both derive the
    per-rank seed [k]: the derivation is not injective in the global
    seed. *)
Theorem worker_seed_not_injective k :
  worker_seed (2 * k) 0 1 = k ∧
  worker_seed (2 * k + 1) 0 1 = k ∧
  2 * k ≠ 2 * k + 1 ∧
  ¬ Inj (=) (=) (λ global_seed, worker_seed global_seed 0 1).
Proof.
  assert (worker_seed (2 * k) 0 1 = k) as H0.
  { unfold worker_seed. rewrite Z.add_0_r, Z.mul_1_r, Z.mul_comm.
    by apply Z.div_mul. }
  assert (worker_seed (2 * k + 1) 0 1 = k) as H1.
  { unfold worker_seed. rewrite Z.add_0_r, Z.mul_1_r.
    rewrite (Z.mul_comm 2 k), Z.div_add_l by done. change (1 / 2) with 0. lia. }
  split_and!; [done|done|lia|].
  intros Hinj. specialize (Hinj (2 * k) (2 * k + 1)). cbv beta in Hinj.
  rewrite H0, H1 in Hinj. specialize (Hinj eq_refl). lia.
Qed.

Section Seed.
Context `{Collaborators}.

(** C6.  The seed a process derives and installs depends on the global
    seed, the rank and the group size only: two processes that agree on
    these three, whatever their other arguments, devices and earlier
    state, derive the same seed, [(global_seed + rank) * world_size // 2],
    install the same generator, and draw the same noise from it. *)
Theorem worker_seed_reproducible a a' P P' s s' seed seed' s1 s1' :
  global_seed a = global_seed a' →
  rank P = rank P' →
  world_size P = world_size P' →
  setup_ddp a P s = (inr seed, s1) →
  setup_ddp a' P' s' = (inr seed', s1') →
  seed = seed' ∧
  seed = worker_seed (global_seed a) (rank P) (world_size P) ∧
  rng s1 = rng s1' ∧
  rng s1 = seed_generator seed ∧
  ∀ n channels size,
    (torch_randn n channels size s1).1 = (torch_randn n channels size s1').1.
Proof.
  intros Hg Hr Hw Hs Hs'.
  assert (seed = seed' ∧
          seed = worker_seed (global_seed a) (rank P) (world_size P) ∧
          rng s1 = rng s1' ∧ rng s1 = seed_generator seed)
    as (Hseed & Hformula & Hrng & Hgen).
  { revert Hs Hs'. unfold setup_ddp, dist_init_process_group, py_mod,
      torch_manual_seed. run_unfold. cbn. rewrite Hg, Hr, Hw.
    repeat (case_match; cbn in *; simplify_eq; try done).
    by intros [= <- <-] [= <- <-]. }
  split_and!; try done.
  intros n channels size. unfold torch_randn, draw. rewrite Hrng.
  by destruct (randn (rng s1') n channels size).
Qed.

End Seed.

(** ** The stub collaborators keep the batch dimension *)

Global Instance stub_batch_preserving : @BatchPreserving stub.
Proof.
  split; try done. intros m t. cbn. by rewrite length_replicate.
Qed.

(** Two workers, two batches of two images each: the first worker saves at
    the indices 0, 2, 4 and 6. *)
Example stub_worker_saves :
  saved_paths (trace (@sample_all stub (default_args 7 2) (Process 0 2 true 1 false)
     default_config () 32 4 "out" (@State stub ∅ 0 [])).2)
  = ["out/000000.png"; "out/000002.png"; "out/000004.png"; "out/000006.png"].
Proof. vm_compute. reflexivity. Qed.

(** ** The claims at concrete inputs *)


Lemma divisibility_assertions_never_fire_witness :
  let total := exact_ceil_div 100 (10 * 4) * (10 * 4) in
  total mod 4 = 0 ∧
  (total / 4) mod 10 = 0 ∧
  (∀ c, ceil_true_divide 100 (10 * 4) = inr c →
     (c * (10 * 4)) mod 4 = 0 ∧ (c * (10 * 4) / 4) mod 10 = 0) ∧
  (∀ msg, batch_plan 100 10 4 ≠ inl (AssertionError msg)).
Proof.
  apply (divisibility_assertions_never_fire 100 10 4); lia.
Defined.

Lemma worker_seed_reproducible_witness :
  let s1 := @State stub ∅ 6 [InitProcessGroup; ManualSeed 6; SetDevice 0] in
  let s1' := @State stub fs_config 6
               [Barrier; InitProcessGroup; ManualSeed 6; SetDevice 3] in
  6 = 6 ∧ 6 = worker_seed 0 3 4 ∧ rng s1 = rng s1' ∧
  rng s1 = @seed_generator stub 6 ∧
  ∀ n channels size,
    (torch_randn n channels size s1).1 = (torch_randn n channels size s1').1.
Proof.
  apply (@worker_seed_reproducible stub
    (default_args 100 10) (make_args 7 2 "sde" true float_half)
    (Process 3 4 true 1 false) (Process 3 4 true 8 true)
    (@State stub ∅ 5 []) (@State stub fs_config 9 [Barrier]));
    reflexivity.
Defined.




Lemma low_cfg_scale_rejected_witness :
  let a := make_args 100 10 "ode" false float_half in
  let P := Process 0 1 true 1 false in
  let s := @State stub fs_config 0 [] in
  ∃ e tr,
    (main a P s).1 = inl e ∧
    fs (main a P s).2 = fs s ∧
    trace (main a P s).2 = trace s ++ tr ∧
    Forall quiet tr ∧
    filter (λ e, is_sampling e = true) tr = [] ∧
    saved_paths tr = [] ∧
    (∀ l, (load_all a P s).1 = inr l →
       e = AssertionError "cfg_scale should be >= 1.0" ∧
       tr = loading_events a P).
Proof.
  apply (@low_cfg_scale_rejected stub (make_args 100 10 "ode" false float_half)
           (Process 0 1 true 1 false) (@State stub fs_config 0 [])).
  reflexivity.
Defined.


(** ** Where the code departs from a claim *)



(** * Further properties *)

(** ** File names *)

Lemma pretty_N_char_leading x :
  (0 < x < 10)%N →
  pretty_N_char x ≠ "0"%char ∧ pretty_N_char x ≠ "-"%char ∧
  pretty_N_char x ≠ "+"%char.
Proof.
  intros Hx.
  assert (x = 1 ∨ x = 2 ∨ x = 3 ∨ x = 4 ∨ x = 5 ∨ x = 6 ∨ x = 7 ∨ x = 8 ∨ x = 9)%N
    as Hcases by lia.
  destruct_or!; subst x; by split_and!.
Qed.

Lemma pretty_N_go_leading x s : (0 < x)%N → leading (pretty_N_go x s).
Proof.
  revert s. induction (N.lt_wf_0 x) as [x _ IH]. intros s Hx.
  rewrite pretty_N_go_step by done.
  destruct (decide (x `div` 10 = 0)%N) as [Hq|Hq].
  - rewrite Hq, pretty_N_go_0.
    assert (x `mod` 10 = x)%N as ->.
    { apply N.mod_small. apply N.div_small_iff in Hq; lia. }
    unfold leading. eexists _, _. split; [done|]. apply pretty_N_char_leading.
    apply N.div_small_iff in Hq; lia.
  - apply IH.
    + apply N.div_lt; lia.
    + apply N.neq_0_lt_0. exact Hq.
Qed.

Lemma pretty_positive_leading (p : positive) : leading (pretty p).
Proof.
  unfold pretty, pretty_positive, pretty, pretty_N.
  rewrite decide_False by done. by apply pretty_N_go_leading.
Qed.

Lemma zeros_S k s : zeros (S k) +:+ s = String "0" (zeros k +:+ s).
Proof. done. Qed.

Lemma strip_zeros_leading k s : leading s → strip_zeros (zeros k +:+ s) = s.
Proof.
  intros (c & rest & -> & Hc & _). induction k as [|k IH].
  - change (zeros 0 +:+ String c rest) with (String c rest).
    destruct rest; [done|]. cbn [strip_zeros].
    by rewrite (proj2 (Ascii.eqb_neq c "0")).
  - rewrite zeros_S. cbn [strip_zeros].
    destruct (zeros k +:+ String c rest) eqn:Hz; [by destruct k|].
    by rewrite Ascii.eqb_refl.
Qed.

Lemma strip_zeros_zero k : strip_zeros (zeros k +:+ "0") = "0".
Proof.
  induction k as [|k IH]; [done|]. rewrite zeros_S. cbn [strip_zeros].
  destruct (zeros k +:+ "0") eqn:Hz; [by destruct k|].
  by rewrite Ascii.eqb_refl.
Qed.

Lemma unfill_zeros k s :
  leading s ∨ s = "0" → unfill (zeros k +:+ s) = s.
Proof.
  intros Hs.
  assert (strip_zeros (zeros k +:+ s) = s) as Hk.
  { destruct Hs as [Hs| ->];
      [by apply strip_zeros_leading|apply strip_zeros_zero]. }
  destruct k as [|k].
  - change (zeros 0 +:+ s) with s in *.
    destruct Hs as [(c & rest & -> & _ & Hc & _)| ->]; [|done].
    unfold unfill. by rewrite (proj2 (Ascii.eqb_neq c "-")).
  - by rewrite zeros_S in *.
Qed.

(** Zero-filling a decimal numeral loses nothing. *)
Lemma unfill_zfill_pretty width (i : Z) :
  unfill (zfill width (pretty i)) = pretty i.
Proof.
  unfold pretty, pretty_Z. destruct i as [|p|p].
  - apply (unfill_zeros _ "0"). by right.
  - pose proof (pretty_positive_leading p) as Hp.
    destruct (Hp) as (c & rest & Hs & _ & Hm & Hplus).
    unfold zfill. rewrite Hs in *.
    rewrite (proj2 (Ascii.eqb_neq c "+")), (proj2 (Ascii.eqb_neq c "-")) by done.
    apply unfill_zeros. by left.
  - change ("-" +:+ pretty p) with (String "-" (pretty p)).
    unfold zfill. cbn [Ascii.eqb orb Bool.eqb].
    change (unfill (String "-" ?s)) with (String "-" (strip_zeros s)).
    f_equal. apply strip_zeros_leading, pretty_positive_leading.
Qed.

Lemma format_06d_inj i j : format_06d i = format_06d j → i = j.
Proof.
  intros Hij. apply (inj pretty).
  rewrite <-(unfill_zfill_pretty 6 i), <-(unfill_zfill_pretty 6 j).
  unfold format_06d in Hij. by rewrite Hij.
Qed.

Lemma list_ascii_of_string_app (s t : string) :
  String.list_ascii_of_string (s +:+ t) =
  String.list_ascii_of_string s ++ String.list_ascii_of_string t.
Proof. induction s as [|c s IH]; [done|]. cbn. by rewrite <-IH. Qed.

Lemma string_app_inj_r (s t1 t2 : string) : t1 +:+ s = t2 +:+ s → t1 = t2.
Proof.
  intros Heq.
  apply (f_equal String.list_ascii_of_string) in Heq.
  rewrite !list_ascii_of_string_app in Heq.
  apply (inj (λ l, l ++ _)) in Heq.
  rewrite <-(String.string_of_list_ascii_of_string t1),
    <-(String.string_of_list_ascii_of_string t2). by f_equal.
Qed.

Lemma png_path_inj dir i j : png_path dir i = png_path dir j → i = j.
Proof.
  unfold png_path. intros Heq.
  apply (inj (String.app dir)), (inj (String.app "/")) in Heq.
  by apply string_app_inj_r, format_06d_inj in Heq.
Qed.

(** X1.  The file name determines the sample index: two indices are stored
    at the same path of a folder exactly when they are equal, whatever
    their size and sign (the six-digit zero-filling of line 213 never
    truncates). *)
Theorem png_path_injective dir i j : png_path dir i = png_path dir j ↔ i = j.
Proof. split; [apply png_path_inj|by intros ->]. Qed.

(** X2.  The images of a group go to pairwise distinct files: over all
    workers, iterations and batch positions of a plan no path is written
    twice. *)
Theorem image_files_distinct requested n world_size p dir :
  1 ≤ n → 1 ≤ world_size →
  batch_plan requested n world_size = inr p →
  NoDup (png_path dir <$> group_indices p n world_size).
Proof.
  intros Hn Hw Hp. apply (NoDup_fmap_2_strong _).
  - intros i j _ _. apply png_path_inj.
  - apply NoDup_all_loop_indices; lia.
Qed.

(** X3.  [os.path.basename] as [main] uses it for the experiment name: the
    name holds no slash, and the path is the name appended to a prefix that
    is empty or ends with a slash.  For a path that ends with a slash the
    name is empty. *)
Theorem basename_spec p :
  has_slash (basename p) = false ∧
  (∃ pre, p = pre +:+ basename p ∧ (pre = "" ∨ ends_with_slash pre = true)) ∧
  (ends_with_slash p = true → basename p = "").
Proof.
  induction p as [|c p (IHs & (pre & IHp & IHpre) & IHe)]; [by split_and!; try exists ""; auto|].
  cbn [basename]. destruct (Ascii.eqb c "/" || has_slash p) eqn:Hc.
  - split_and!; [done| |].
    + exists (String c pre). split.
      { change (String c pre +:+ basename p)
          with (String c (pre +:+ basename p)). f_equal. exact IHp. }
      right.
      destruct IHpre as [->|Hpre].
      * apply orb_true_iff in Hc as [Hc|Hc]; [exact Hc|].
        change ("" +:+ basename p) with (basename p) in IHp.
        rewrite IHp in Hc. by rewrite IHs in Hc.
      * cbn [ends_with_slash]. by destruct pre.
    + intros He. cbn [ends_with_slash] in He.
      destruct p; [done|]. by apply IHe.
  - apply orb_false_iff in Hc as [Hc Hp]. split_and!.
    + cbn. by rewrite Hc, Hp.
    + exists "". auto.
    + intros He. cbn [ends_with_slash] in He. destruct p as [|c' p']; [congruence|].
      clear -He Hp. exfalso. revert c' Hp He. induction p' as [|c'' p'' IH]; intros c' Hp He.
      * cbn in *. by rewrite He in Hp.
      * apply (IH c''); [|exact He]. cbn in Hp |- *.
        by apply orb_false_iff in Hp as [_ Hp].
Qed.

(** ** The planner and the seed *)

(** X4.  Below [2 ^ 53] requested samples the planner is exact: the total
    is the smallest multiple of the global batch size that is not below the
    request, so it exceeds the request by less than one global batch and
    equals it when the request is such a multiple; every worker gets
    [iterations * n] samples. *)
Theorem plan_is_least_multiple requested n world_size :
  1 ≤ requested < 2 ^ 53 → 1 ≤ n → 1 ≤ world_size →
  n * world_size ≤ 2 ^ 1022 →
  ∃ p, batch_plan requested n world_size = inr p ∧
    global_batch_size p = n * world_size ∧
    total_samples p = iterations p * global_batch_size p ∧
    samples_needed_this_gpu p = iterations p * n ∧
    1 ≤ iterations p ∧
    requested ≤ total_samples p < requested + global_batch_size p ∧
    (requested mod global_batch_size p = 0 → total_samples p = requested).
Proof.
  intros Hr Hn Hw Hb.
  destruct (batch_plan_exact requested n world_size Hr Hn Hw Hb)
    as (Hp & Hc & Hle & Hmin).
  set (c := exact_ceil_div requested (n * world_size)) in *.
  assert (0 < n * world_size) as Hpos by nia.
  pose proof (PyFloatFacts.exact_ceil_div_bounds requested (n * world_size) Hpos)
    as [Hlo _]. fold c in Hlo.
  eexists. split; [exact Hp|]. cbn. split_and!; try done; try lia.
  intros Hmod. apply Z.mod_divide in Hmod as [k Hk]; [|lia].
  specialize (Hmin k). lia.
Qed.

(** X5.  The planner divides by zero exactly when the batch size or the
    group size is zero (line 165). *)
Theorem batch_plan_zero_division requested n world_size :
  batch_plan requested n world_size = inl ZeroDivisionError ↔
  n = 0 ∨ world_size = 0.
Proof.
  unfold batch_plan, ceil_true_divide, PyFloat.true_divide. split.
  - intros Hp. destruct (n * world_size =? 0) eqn:Hz; [lia|].
    exfalso. revert Hp.
    repeat match goal with
           | |- context [if ?b then _ else _] => destruct b
           end; discriminate.
  - intros Hz. by rewrite (proj2 (Z.eqb_eq (n * world_size) 0)) by lia.
Qed.

(** X6.  In a group of at least two workers the seed grows strictly with
    the rank, so no two workers of one run share a seed; and the seed
    depends on the sum of the global seed and the rank only, so the run
    with the next global seed gives each rank the seed of its successor. *)
Theorem worker_seed_strictly_increasing global_seed world_size r r' :
  2 ≤ world_size → r < r' →
  worker_seed global_seed r world_size < worker_seed global_seed r' world_size ∧
  worker_seed (global_seed + 1) r world_size =
    worker_seed global_seed (r + 1) world_size.
Proof.
  intros Hw Hr. unfold worker_seed. split.
  - apply Z.div_lt_upper_bound; [lia|].
    pose proof (Z.mul_div_le ((global_seed + r') * world_size) 2).
    pose proof (Z.mod_pos_bound ((global_seed + r') * world_size) 2).
    pose proof (Z.div_mod ((global_seed + r') * world_size) 2).
    nia.
  - f_equal. lia.
Qed.

Lemma length_loop_indices iters n world_size rank total :
  length (loop_indices iters n world_size rank total)
  = (iters * Z.to_nat n)%nat.
Proof.
  revert total. induction iters as [|k IH]; intros total; [done|].
  cbn [loop_indices]. rewrite length_app, IH.
  unfold batch_indices, range. rewrite length_fmap, length_seqZ. lia.
Qed.


(** ** The contents of the archive *)

Section Contents.
Context `{Collaborators}.

(** The reading loop on a folder that holds an image at every index. *)
Lemma read_all dir xs imgs acc s :
  Forall2 (λ i img, fs s !! png_path dir i = Some (PngFile img)) xs imgs →
  for_fold xs (λ i samples,
    sample_np ← image_open (png_path dir i);
    mret (samples ++ [sample_np])) acc s =
  (inr (acc ++ imgs),
   State (fs s) (rng s) (trace s ++ open_events dir xs)).
Proof.
  remember (fs s) as fsys eqn:Hfs. intros Hall. revert acc s Hfs.
  induction Hall as [|x img xs imgs Hx _ IH]; intros acc s ->.
  - cbn. rewrite !app_nil_r. by destruct s.
  - cbn [for_fold]. rewrite run_bind. unfold image_open at 1.
    run_unfold. cbn. rewrite Hx. cbn.
    specialize (IH (acc ++ [img])
      (State (fs s) (rng s) (trace s ++ [OpenPng (png_path dir x)])) eq_refl).
    run_unfold. rewrite IH. cbn. by rewrite <- !(assoc_L (++)).
Qed.

Lemma lookup_images dir xs s :
  (∀ x, x ∈ xs → ∃ img, fs s !! png_path dir x = Some (PngFile img)) →
  ∃ imgs, Forall2 (λ i img, fs s !! png_path dir i = Some (PngFile img)) xs imgs.
Proof.
  induction xs as [|x xs IH]; intros Hall; [by exists []|].
  destruct (Hall x) as [img Himg]; [by left|].
  destruct IH as [imgs Himgs]; [intros ??; apply Hall; by right|].
  exists (img :: imgs). by constructor.
Qed.

Lemma np_stack_same_shape imgs sh :
  imgs ≠ [] → Forall (λ img, shape img = sh) imgs →
  np_stack imgs =
    inr (NdArray (Z.of_nat (length imgs) :: sh) (imgs ≫= elements)).
Proof.
  intros Hne Hall. destruct imgs as [|a rest]; [done|]. unfold np_stack.
  apply Forall_cons in Hall as [Ha Hrest].
  rewrite (proj2 (forallb_forall _ _)); [by rewrite Ha|].
  intros b Hb%list_elem_of_In. apply bool_decide_eq_true.
  rewrite Ha. by apply (proj1 (Forall_forall _ _) Hrest).
Qed.

Lemma np_stack_inr_shapes imgs arr :
  np_stack imgs = inr arr →
  ∃ sh, shape arr = Z.of_nat (length imgs) :: sh ∧
        Forall (λ img, shape img = sh) imgs ∧
        elements arr = imgs ≫= elements.
Proof.
  unfold np_stack. destruct imgs as [|a rest]; [done|].
  destruct (forallb _ rest) eqn:Hall; [|done]. intros [= <-].
  exists (shape a). split_and!; [done| |done]. constructor; [done|].
  apply Forall_forall. intros b Hb%list_elem_of_In.
  by apply (proj1 (forallb_forall _ _) Hall), bool_decide_eq_true in Hb.
Qed.

(** What the builder does once it has read the images [imgs]. *)
Lemma create_npz_read dir num imgs s :
  Forall2 (λ i img, fs s !! png_path dir i = Some (PngFile img))
    (range num) imgs →
  create_npz_from_sample_folder dir num s =
  (samples ← lift (np_stack imgs);
   s1 ← tuple_get (shape samples) 1;
   s2 ← tuple_get (shape samples) 2;
   assert (bool_decide (shape samples = [num; s1; s2; 3])) "";;
   np_savez (npz_path dir) samples;;
   mret (npz_path dir))
    (State (fs s) (rng s) (trace s ++ open_events dir (range num))).
Proof.
  intros Hall. unfold create_npz_from_sample_folder.
  rewrite run_bind, (read_all _ _ _ _ _ Hall). reflexivity.
Qed.

Lemma length_range num : 0 ≤ num → Z.of_nat (length (range num)) = num.
Proof. intros. unfold range. rewrite length_seqZ. lia. Qed.

Lemma create_npz_stacks dir num s imgs h w :
  1 ≤ num →
  Forall2 (λ i img, fs s !! png_path dir i = Some (PngFile img))
    (range num) imgs →
  Forall (λ img, shape img = [h; w; 3]) imgs →
  create_npz_from_sample_folder dir num s =
    (inr (npz_path dir),
     State (<[npz_path dir :=
                NpzFile (NdArray [num; h; w; 3] (imgs ≫= elements))]> (fs s))
       (rng s)
       (trace s ++ open_events dir (range num) ++ [SaveNpz (npz_path dir)])).
Proof.
  intros Hnum Hall Hshape. rewrite (create_npz_read _ _ _ _ Hall).
  assert (Z.of_nat (length imgs) = num) as Hlen.
  { rewrite <- (Forall2_length _ _ _ Hall). apply length_range. lia. }
  rewrite run_bind. unfold lift at 1.
  rewrite (np_stack_same_shape imgs [h; w; 3]);
    [|intros ->; cbn in Hlen; lia|done].
  rewrite Hlen. unfold np_savez, tuple_get. run_unfold. cbn.
  rewrite bool_decide_eq_true_2 by done. cbn.
  by rewrite <- (assoc_L (++)).
Qed.

(** X8.  The archive holds the images at the indices below [num], stacked
    in the order of their indices: when the folder holds an image of one
    and the same shape [(h, w, 3)] at each of these indices, the builder
    reads exactly these files, in increasing order, and writes an array
    of shape [(num, h, w, 3)] with their elements to [sample_dir + ".npz"];
    nothing else changes, and files at larger indices are not looked at. *)
Theorem archive_contents dir num s imgs h w :
  1 ≤ num →
  Forall2 (λ i img, fs s !! png_path dir i = Some (PngFile img))
    (range num) imgs →
  Forall (λ img, shape img = [h; w; 3]) imgs →
  let run := create_npz_from_sample_folder dir num s in
  run.1 = inr (npz_path dir) ∧
  fs run.2 =
    <[npz_path dir := NpzFile (NdArray [num; h; w; 3] (imgs ≫= elements))]>
      (fs s) ∧
  rng run.2 = rng s ∧
  trace run.2 =
    trace s ++ open_events dir (range num) ++ [SaveNpz (npz_path dir)].
Proof.
  intros Hnum Hall Hshape run. subst run.
  by rewrite (create_npz_stacks _ _ _ _ _ _ Hnum Hall Hshape).
Qed.

(** X9.  The builder ends normally exactly when at least one sample is
    asked for and the folder holds, at every index below [num], an image,
    all of one shape [(h, w, 3)]: an absent file, a file that is not an
    image, images of different sizes and images that are not
    three-channel are all fatal. *)
Theorem archive_built_iff dir num s :
  (∃ path, (create_npz_from_sample_folder dir num s).1 = inr path) ↔
  1 ≤ num ∧
  ∃ h w, ∀ i, 0 ≤ i < num →
    ∃ img, fs s !! png_path dir i = Some (PngFile img) ∧ shape img = [h; w; 3].
Proof.
  split.
  - intros [path Hpath].
    pose proof (create_npz_spec dir num s) as Hspec. cbv zeta in Hspec.
    rewrite Hpath in Hspec. destruct Hspec as (_ & Hnum & Hall & _).
    split; [done|].
    destruct (lookup_images dir (range num) s) as [imgs Himgs].
    { intros x Hx. apply Hall. unfold range in Hx.
      apply elem_of_seqZ in Hx. lia. }
    rewrite (create_npz_read _ _ _ _ Himgs) in Hpath.
    rewrite run_bind in Hpath. unfold lift at 1 in Hpath.
    destruct (np_stack imgs) as [e|arr] eqn:Hstack; [done|].
    apply np_stack_inr_shapes in Hstack as (sh & Harr & Hsh & _).
    revert Hpath. unfold np_savez, tuple_get. run_unfold. rewrite Harr.
    destruct sh as [|h [|w sh]]; cbn; try done.
    case_bool_decide as Heq; [|done]. intros _. exists h, w.
    intros i Hi.
    assert (i ∈ range num) as Hin by (apply elem_of_seqZ; lia).
    apply list_elem_of_lookup in Hin as [k Hk].
    destruct (Forall2_lookup_l _ _ _ _ _ Himgs Hk) as (img & Himg & Hfs).
    exists img. split; [done|].
    rewrite (proj1 (Forall_lookup _ _) Hsh k img Himg). congruence.
  - intros (Hnum & h & w & Hall).
    destruct (lookup_images dir (range num) s) as [imgs Himgs].
    { intros x Hx. unfold range in Hx. apply elem_of_seqZ in Hx.
      destruct (Hall x) as (img & ? & _); [lia|eauto]. }
    exists (npz_path dir).
    rewrite (create_npz_stacks _ _ _ _ h w Hnum Himgs); [done|].
    apply Forall_lookup. intros k img Himg.
    destruct (Forall2_lookup_r _ _ _ _ _ Himgs Himg) as (i & Hi & Hfs).
    apply list_elem_of_lookup_2, elem_of_seqZ in Hi.
    destruct (Hall i) as (img' & Hfs' & Hsh); [lia|]. congruence.
Qed.

(** X10.  Asked for no sample, or for a negative number of samples, the
    builder reads nothing and fails in [np.stack], which rejects the empty
    list; the state is as it was. *)
Theorem archive_of_nothing dir num s :
  num ≤ 0 →
  create_npz_from_sample_folder dir num s =
    (inl (ValueError "need at least one array to stack"), s).
Proof.
  intros Hnum. unfold create_npz_from_sample_folder, range.
  rewrite seqZ_nil by lia. reflexivity.
Qed.

Lemma for_fold_app {A S} (xs ys : list A) (body : A → S → M S) acc s :
  for_fold (xs ++ ys) body acc s =
  match for_fold xs body acc s with
  | (inl e, s') => (inl e, s')
  | (inr acc', s') => for_fold ys body acc' s'
  end.
Proof.
  revert acc s. induction xs as [|x xs IH]; intros acc s; [done|].
  cbn [app for_fold]. rewrite !run_bind.
  destruct (body x acc s) as [[e|acc'] s']; [done|]. apply IH.
Qed.


End Contents.

(** ** What a run writes *)

Section Writes.
Context `{Collaborators}.

Global Instance confined_preorder dir : PreOrder (confined dir).
Proof.
  split.
  - intros s path. done.
  - intros s1 s2 s3 H12 H23 path.
    destruct (H12 path) as [Hk Hc], (H23 path) as [Hk' Hc']. split; [auto|].
    intros Hout. by rewrite Hc', Hc.
Qed.

Lemma saved_paths_app tr tr' :
  saved_paths (tr ++ tr') = saved_paths tr ++ saved_paths tr'.
Proof. unfold saved_paths. apply omap_app. Qed.

Global Instance saved_preorder Sh : PreOrder (saved Sh).
Proof.
  split.
  - intros s. exists []. rewrite app_nil_r. split; [done|].
    intros path. split; [by intros ?%elem_of_nil|done].
  - intros s1 s2 s3 (tr & Htr & H12) (tr' & Htr' & H23). exists (tr ++ tr').
    rewrite Htr', Htr, (assoc_L (++)). split; [done|].
    intros path. rewrite saved_paths_app.
    destruct (H12 path) as [Hin Hout], (H23 path) as [Hin' Hout'].
    destruct (decide (path ∈ saved_paths tr')) as [Hp|Hp].
    + split; [auto|]. intros Hn. exfalso. apply Hn, elem_of_app. auto.
    + rewrite (Hout' Hp). split.
      * intros [?|?]%elem_of_app; [auto|done].
      * intros Hn. apply Hout. intros ?. apply Hn, elem_of_app. auto.
Qed.

Lemma same_files_confined dir s s' : same_files s s' → confined dir s s'.
Proof. unfold same_files. intros Hfs path. by rewrite Hfs. Qed.

Lemma confined_emit dir e : stays (confined dir) (emit e).
Proof. intros s. by apply same_files_confined. Qed.

Lemma confined_draw {A} dir (f : generator → A * generator) e :
  stays (confined dir) (draw f e).
Proof. intros s. apply same_files_confined, same_files_draw. Qed.

Lemma confined_write_file dir path f :
  in_folder dir path → stays (confined dir) (write_file path f).
Proof.
  intros Hin s path'. cbn. destruct (decide (path' = path)) as [->|Hne].
  - rewrite lookup_insert_eq. split; [eauto|done].
  - by rewrite lookup_insert_ne.
Qed.

Lemma saved_emit Sh e : saved_paths [e] = [] → stays (saved Sh) (emit e).
Proof.
  intros He s. exists [e]. split; [done|]. rewrite He. intros path.
  split; [by intros ?%elem_of_nil|done].
Qed.

Lemma saved_draw {A} Sh (f : generator → A * generator) e :
  saved_paths [e] = [] → stays (saved Sh) (draw f e).
Proof.
  intros He s. exists [e]. unfold draw. destruct (f (rng s)).
  split; [done|]. rewrite He. intros path.
  split; [by intros ?%elem_of_nil|done].
Qed.

Lemma saved_image_save (Sh : ndarray → Prop) path img :
  Sh img → stays (saved Sh) (image_save path img).
Proof.
  intros Himg s. exists [SavePng path]. split; [done|]. intros path'.
  change (fs (image_save path img s).2)
    with (<[path := PngFile img]> (fs s)).
  change (saved_paths [SavePng path]) with [path]. split.
  - intros ->%list_elem_of_singleton. rewrite lookup_insert_eq. eauto.
  - intros Hne. rewrite lookup_insert_ne; [done|]. intros <-. apply Hne. by left.
Qed.

Lemma stays_for_each_elem {A} (R : relation state) `{!PreOrder R}
    (xs : list A) (body : A → M unit) :
  (∀ x, x ∈ xs → stays R (body x)) → stays R (for_each xs body).
Proof.
  induction xs as [|x xs IH]; intros Hbody; cbn [for_each].
  - apply stays_ret, _.
  - apply stays_bind; [tc_solve|apply Hbody; by left|intros _].
    apply IH. intros ??. apply Hbody. by right.
Qed.

End Writes.

Global Hint Resolve confined_emit confined_draw confined_write_file
  saved_emit saved_draw saved_image_save : runs.
Global Hint Extern 1 (sampling _) => exact eq_refl : runs.
Global Hint Extern 1 (saved_paths [_] = []) => exact eq_refl : runs.
Global Hint Extern 1 (in_folder _ _) =>
  first [by left | by right; left | by right; right; eexists] : runs.

Section Footprints.
Context `{Collaborators}.

Lemma confined_image_save dir i sample :
  stays (confined dir) (image_save (png_path dir i) sample).
Proof. unfold image_save. run_auto. Qed.

Lemma confined_os_makedirs dir : stays (confined dir) (os_makedirs dir).
Proof. unfold os_makedirs. run_auto. Qed.

Lemma confined_decide_skip P dir : stays (confined dir) (decide_skip P dir).
Proof.
  unfold decide_skip. pose proof confined_os_makedirs.
  destruct (rank P =? 0); run_auto.
Qed.

Lemma confined_run_sampler dir a kw : stays (confined dir) (run_sampler a kw).
Proof. unfold run_sampler. repeat case_match; run_auto. Qed.

Lemma confined_sampling_iteration dir a P c m ls ic n g total :
  stays (confined dir) (sampling_iteration a P c m ls ic dir n g total).
Proof.
  unfold sampling_iteration, torch_randn, torch_randint.
  pose proof confined_run_sampler. pose proof confined_image_save. run_auto.
Qed.

Lemma confined_sample_all dir a P c m ls ic :
  stays (confined dir) (sample_all a P c m ls ic dir).
Proof.
  unfold sample_all. pose proof confined_sampling_iteration. run_auto.
Qed.

Lemma confined_create_npz dir num :
  stays (confined dir) (create_npz_from_sample_folder dir num).
Proof.
  unfold create_npz_from_sample_folder, image_open, np_savez. run_auto.
Qed.

Lemma confined_finish dir a P : stays (confined dir) (finish a P dir).
Proof.
  unfold finish, dist_barrier, dist_destroy_process_group.
  pose proof confined_create_npz. destruct (rank P =? 0); run_auto.
Qed.

Lemma confined_after_decision dir a P l skip :
  stays (confined dir) (after_decision a P l dir skip).
Proof.
  unfold after_decision, dist_broadcast, dist_barrier,
    dist_destroy_process_group.
  pose proof confined_sample_all. pose proof confined_finish. run_auto.
Qed.


End Footprints.

(** ** The images of one worker *)

Section OnDisk.
Context `{Collaborators}.

Lemma elem_of_enumerate {A} (xs : list A) i x :
  (i, x) ∈ enumerate xs → x ∈ xs.
Proof.
  unfold enumerate. intros Hin. apply list_elem_of_lookup in Hin as [k Hk].
  apply lookup_zip_with_Some in Hk as (? & ? & [= <- <-] & _ & Hx).
  by apply list_elem_of_lookup_2 in Hx.
Qed.

Lemma saved_run_sampler Sh a kw : stays (saved Sh) (run_sampler a kw).
Proof. unfold run_sampler. repeat case_match; run_auto. Qed.

Lemma saved_sampling_iteration (Sh : ndarray → Prop) a P c m ls ic dir n g total :
  (∀ t img, img ∈ decode_uint8 m t → Sh img) →
  stays (saved Sh) (sampling_iteration a P c m ls ic dir n g total).
Proof.
  intros Hdec. unfold sampling_iteration, torch_randn, torch_randint.
  pose proof saved_run_sampler.
  do 5 (apply stays_bind; [tc_solve|run_auto|intros ?]).
  apply stays_bind; [tc_solve| |intros ?; run_auto].
  apply stays_for_each_elem; [tc_solve|]. intros [i sample] Hin.
  apply saved_image_save. eapply Hdec, elem_of_enumerate, Hin.
Qed.

Lemma saved_sample_all (Sh : ndarray → Prop) a P c m ls ic dir :
  (∀ t img, img ∈ decode_uint8 m t → Sh img) →
  stays (saved Sh) (sample_all a P c m ls ic dir).
Proof.
  intros Hdec. unfold sample_all.
  pose proof (λ n g total,
    saved_sampling_iteration Sh a P c m ls ic dir n g total Hdec).
  run_auto.
Qed.

Lemma sampling_image_save path sample :
  stays (extends sampling) (image_save path sample).
Proof. unfold image_save. run_auto. Qed.

Lemma sampling_run_sampler a kw : stays (extends sampling) (run_sampler a kw).
Proof. unfold run_sampler. repeat case_match; run_auto. Qed.

Lemma sampling_sampling_iteration a P c m ls ic dir n g total :
  stays (extends sampling) (sampling_iteration a P c m ls ic dir n g total).
Proof.
  unfold sampling_iteration, torch_randn, torch_randint.
  pose proof sampling_image_save. pose proof sampling_run_sampler. run_auto.
Qed.

Lemma sampling_sample_all a P c m ls ic dir :
  stays (extends sampling) (sample_all a P c m ls ic dir).
Proof. unfold sample_all. pose proof sampling_sampling_iteration. run_auto. Qed.

Context `{!BatchPreserving}.

(** The sampling loop of a worker that passes the checks of lines 182 and
    197-202: its events, the images it saves and where they are. *)
Lemma sample_all_on_disk (Sh : ndarray → Prop) a P c m ls ic dir p s :
  negb (heun a) || String.eqb (mode a) "ode" = true →
  String.eqb (mode a) "sde" || String.eqb (mode a) "ode" = true →
  pproc_batch_size a ≠ 0 → world_size P ≠ 0 →
  batch_plan (num_fid_samples a) (pproc_batch_size a) (world_size P) = inr p →
  (∀ t img, img ∈ decode_uint8 m t → Sh img) →
  let indices :=
    worker_indices p (pproc_batch_size a) (world_size P) (rank P) in
  ∃ s' tr,
    sample_all a P c m ls ic dir s = (inr (), s') ∧
    trace s' = trace s ++ tr ∧ Forall sampling tr ∧
    saved_paths tr = png_path dir <$> indices ∧
    (∀ i, i ∈ indices →
       ∃ img, fs s' !! png_path dir i = Some (PngFile img) ∧ Sh img) ∧
    (∀ path, (∀ i, i ∈ indices → path ≠ png_path dir i) →
       fs s' !! path = fs s !! path).
Proof.
  intros Hheun Hmode Hn Hw Hp Hdec indices.
  destruct (sample_all_saves a P c m ls ic dir p s Hheun Hmode Hn Hw Hp)
    as (s' & Hrun & Hsaved).
  destruct (saved_sample_all Sh a P c m ls ic dir Hdec s) as (tr & Htr & Hfs).
  destruct (sampling_sample_all a P c m ls ic dir s) as (tr' & Htr' & Hall).
  rewrite Hrun in Htr, Hfs, Htr'. cbn [snd] in Htr, Hfs, Htr'.
  assert (tr' = tr) as -> by (rewrite Htr in Htr'; by simplify_list_eq).
  rewrite Htr, saved_paths_app in Hsaved. apply (inj (app _)) in Hsaved.
  fold indices in Hsaved. exists s', tr. split_and!; try done.
  - intros i Hi. apply Hfs. rewrite Hsaved. by apply list_elem_of_fmap_2.
  - intros path Hout. apply Hfs. rewrite Hsaved.
    intros (i & -> & Hi)%list_elem_of_fmap. by apply (Hout i).
Qed.


End OnDisk.

(** ** Whole runs *)

Section Whole.
Context `{Collaborators}.

(** A run that is not skipped, up to the sampling loop. *)
Lemma main_samples a P s l :
  (load_all a P s).1 = inr l →
  float_ge (cfg_scale a) float_one = true →
  let dir := sample_folder_dir a (l_exp_name l) (l_train_step_str l) in
  (rank P = 0 →
     fs s !! npz_path dir = None ∧
     (fs s !! dir = None ∨ fs s !! dir = Some Directory)) →
  (rank P ≠ 0 → recv_skip P = false) →
  main a P s =
    (sample_all a P (l_config l) (l_models l) (l_latent_size l)
       (l_in_channels l) dir;; finish a P dir)
      (State (if rank P =? 0 then <[dir := Directory]> (fs s) else fs s)
         (seed_generator (worker_seed (global_seed a) (rank P) (world_size P)))
         (trace s ++ loading_events a P
            ++ (if rank P =? 0 then [Makedirs dir] else [])
            ++ [Broadcast false; Barrier])).
Proof.
  intros Hl%load_all_run Hcfg dir Hfs Hrecv.
  rewrite (main_loaded _ _ _ _ _ Hl Hcfg). cbn zeta. fold dir.
  rewrite run_bind, decide_skip_not_archived by done. cbv beta iota.
  rewrite after_decision_sample.
  2:{ destruct (Z.eqb_spec (rank P) 0); [done|]. by apply Hrecv. }
  cbn [fs rng trace]. by rewrite <- !(assoc_L (++)).
Qed.

Lemma finish_other_rank a P dir s :
  rank P ≠ 0 →
  finish a P dir s =
    (inr (), State (fs s) (rng s)
               (trace s ++ [Barrier; Barrier; DestroyProcessGroup])).
Proof.
  intros Hr%Z.eqb_neq. unfold finish, dist_barrier, dist_destroy_process_group.
  rewrite Hr. run_unfold. cbn. by rewrite <- !(assoc_L (++)).
Qed.

Context `{!BatchPreserving}.


End Whole.

Section Single.
Context `{Collaborators}.

Lemma npz_path_ne_png dir i : npz_path dir ≠ png_path dir i.
Proof.
  unfold npz_path, png_path. intros Heq.
  apply (inj (String.app dir)) in Heq. discriminate.
Qed.

(** A single worker saves its images in the order of their indices. *)
Lemma loop_indices_single iters n total :
  0 ≤ n → loop_indices iters n 1 0 total = seqZ total (Z.of_nat iters * n).
Proof.
  intros Hn. revert total. induction iters as [|k IH]; intros total;
    [done|].
  cbn [loop_indices]. rewrite IH.
  replace (Z.of_nat (S k) * n) with (n + Z.of_nat k * n) by lia.
  rewrite seqZ_app by lia. f_equal; [|f_equal; lia].
  unfold batch_indices, sample_index, range.
  replace (seqZ total n) with (seqZ (total + 0) n) by (f_equal; lia).
  rewrite <- (fmap_add_seqZ total 0).
  apply list_fmap_ext. intros _ i _. lia.
Qed.

Lemma take_range total num :
  0 ≤ num ≤ total → take (Z.to_nat num) (range total) = range num.
Proof.
  intros Hnum. unfold range.
  replace total with (num + (total - num)) by lia.
  rewrite seqZ_app by lia. rewrite take_app_length'; [done|].
  rewrite length_seqZ. lia.
Qed.

Context `{!BatchPreserving}.

(** X15.  A run of a single worker from start to end.  Without an archive
    in place, with a mode and a Heun setting that pass the checks, at least
    one and less than [2 ^ 53] samples asked for, and a decoder that yields
    images of shape [(h, w, 3)], [main] ends normally.  It loads, creates
    the sample folder, broadcasts [false], and between the first and the
    second barrier saves the images at the indices [0, 1, ...,
    total_samples - 1], in this order; after the second barrier it reads
    the first [num_fid_samples] of them and writes the archive, an array
    of shape [(num_fid_samples, h, w, 3)] that holds these images in the
    order of their indices; then it passes the last barrier and leaves the
    process group.  The surplus images stay in the folder. *)
Theorem single_worker_run a P s l h w :
  rank P = 0 → world_size P = 1 →
  (load_all a P s).1 = inr l →
  float_ge (cfg_scale a) float_one = true →
  negb (heun a) || String.eqb (mode a) "ode" = true →
  String.eqb (mode a) "sde" || String.eqb (mode a) "ode" = true →
  1 ≤ num_fid_samples a < 2 ^ 53 →
  1 ≤ pproc_batch_size a ≤ 2 ^ 1022 →
  (∀ t img, img ∈ decode_uint8 (l_models l) t → shape img = [h; w; 3]) →
  let dir := sample_folder_dir a (l_exp_name l) (l_train_step_str l) in
  fs s !! npz_path dir = None →
  fs s !! dir = None ∨ fs s !! dir = Some Directory →
  let num := num_fid_samples a in
  let total :=
    exact_ceil_div num (pproc_batch_size a) * pproc_batch_size a in
  let run := main a P s in
  run.1 = inr () ∧
  num ≤ total ∧
  (∃ tr,
     trace run.2 =
       trace s ++ loading_events a P
         ++ [Makedirs dir; Broadcast false; Barrier] ++ tr ++ [Barrier]
         ++ open_events dir (range num)
         ++ [SaveNpz (npz_path dir); Barrier; DestroyProcessGroup] ∧
     Forall sampling tr ∧
     saved_paths tr = png_path dir <$> range total) ∧
  (∃ imgs,
     Forall2 (λ i img, fs run.2 !! png_path dir i = Some (PngFile img))
       (range total) imgs ∧
     Forall (λ img, shape img = [h; w; 3]) imgs ∧
     fs run.2 !! npz_path dir =
       Some (NpzFile (NdArray [num; h; w; 3]
                        (take (Z.to_nat num) imgs ≫= elements)))).
Proof.
  intros Hr Hw Hl Hcfg Hheun Hmode Hnum Hn Hdec dir Hnpz Hdir num total run.
  subst run.
  destruct (batch_plan_exact num (pproc_batch_size a) 1)
    as (Hp & Hc & Hle & _); [done|lia|lia|lia|].
  rewrite Z.mul_1_r in Hp, Hle. fold total in Hle.
  set (c := exact_ceil_div num (pproc_batch_size a)) in *.
  set (p := SamplePlan _ _ _ _) in Hp.
  rewrite (main_samples a P s l Hl Hcfg) by done. fold dir.
  rewrite Hr, Hw. cbn [Z.eqb]. rewrite run_bind.
  match goal with |- context [sample_all _ _ _ _ _ _ _ ?s0] =>
    destruct (sample_all_on_disk (λ img, shape img = [h; w; 3]) a P
      (l_config l) (l_models l) (l_latent_size l) (l_in_channels l) dir p s0)
      as (s' & tr & -> & Htr & Hall & Hsaved & Hin & Hout);
      [done|done|lia|lia|by rewrite Hw|done|]
  end.
  cbn [fs trace] in Htr, Hout.
  assert (worker_indices p (pproc_batch_size a) (world_size P) (rank P)
          = range total) as Hidx.
  { unfold worker_indices. rewrite Hr, Hw, loop_indices_single by lia.
    unfold range, total. subst p. cbn [iterations]. by rewrite Z2Nat.id by lia. }
  rewrite Hidx in Hsaved, Hin, Hout.
  destruct (lookup_images dir (range total) s') as [imgs Himgs].
  { intros i Hi. destruct (Hin i Hi) as (img & ? & _). eauto. }
  assert (Forall (λ img, shape img = [h; w; 3]) imgs) as Hshapes.
  { apply Forall_lookup. intros k img Himg.
    destruct (Forall2_lookup_r _ _ _ _ _ Himgs Himg) as (i & Hi & Hfs).
    apply list_elem_of_lookup_2 in Hi.
    destruct (Hin i Hi) as (img' & Hfs' & Hsh). congruence. }
  rewrite finish_rank0 by done.
  set (s0 := State (fs s') (rng s') (trace s' ++ [Barrier])).
  assert (Forall2 (λ i img, fs s0 !! png_path dir i = Some (PngFile img))
            (range num) (take (Z.to_nat num) imgs)) as Hread.
  { rewrite <- (take_range total num) by lia. by apply Forall2_take. }
  fold num.
  rewrite (create_npz_stacks dir num s0 (take (Z.to_nat num) imgs) h w);
    [|lia|done|by apply Forall_take].
  subst s0. cbn [fst snd fs rng trace]. split_and!; [done|done| |].
  - exists tr. rewrite Htr. split_and!; [|done|done].
    by rewrite <- !(assoc_L (++)).
  - exists imgs. split_and!; [|done|by rewrite lookup_insert_eq].
    eapply Forall2_impl; [exact Himgs|]. intros i img Hfs. cbn beta.
    rewrite lookup_insert_ne; [done|]. apply npz_path_ne_png.
Qed.

End Single.

Global Hint Extern 1 (calm _) => (intros ?; discriminate) : runs.

(** ** The archive of a group, and leaving the process group *)

Section Group.
Context `{Collaborators}.

(** X16.  What the workers of a group save is enough for the archive.
    When rank 0 reaches the barrier of line 217 and every index of every
    worker of the plan holds an image of shape [(h, w, 3)], as each worker
    leaves them behind, the last phase ends normally on rank 0: between
    two barriers it reads the images at the indices below
    [num_fid_samples], all of which are among the workers' indices, and
    writes the archive of shape [(num_fid_samples, h, w, 3)]. *)
Theorem group_images_suffice a P dir s h w p :
  rank P = 0 →
  1 ≤ num_fid_samples a < 2 ^ 53 →
  1 ≤ pproc_batch_size a → 1 ≤ world_size P →
  pproc_batch_size a * world_size P ≤ 2 ^ 1022 →
  batch_plan (num_fid_samples a) (pproc_batch_size a) (world_size P) = inr p →
  (∀ r i, 0 ≤ r < world_size P →
     i ∈ worker_indices p (pproc_batch_size a) (world_size P) r →
     ∃ img, fs s !! png_path dir i = Some (PngFile img) ∧
            shape img = [h; w; 3]) →
  let num := num_fid_samples a in
  ∃ imgs,
    Forall2 (λ i img, fs s !! png_path dir i = Some (PngFile img))
      (range num) imgs ∧
    finish a P dir s =
      (inr (),
       State (<[npz_path dir :=
                  NpzFile (NdArray [num; h; w; 3] (imgs ≫= elements))]> (fs s))
         (rng s)
         (trace s ++ [Barrier] ++ open_events dir (range num)
            ++ [SaveNpz (npz_path dir); Barrier; DestroyProcessGroup])).
Proof.
  intros Hr Hnum Hn Hw Hb Hp Hdisk num.
  destruct (batch_plan_exact num (pproc_batch_size a) (world_size P))
    as (Hp' & Hc & Hle & _); [done..|].
  fold num in Hp. rewrite Hp' in Hp. injection Hp as <-.
  set (c := exact_ceil_div num (pproc_batch_size a * world_size P)) in *.
  assert (∀ i, i ∈ range num →
            ∃ img, fs s !! png_path dir i = Some (PngFile img) ∧
                   shape img = [h; w; 3]) as Hall.
  { intros i Hi%elem_of_seqZ.
    assert (i ∈ range (world_size P) ≫= (λ r,
              loop_indices (Z.to_nat c) (pproc_batch_size a) (world_size P) r 0))
      as Hin.
    { apply elem_of_all_loop_indices; [lia|lia|]. rewrite Z2Nat.id by lia.
      lia. }
    apply list_elem_of_bind in Hin as (r & Hi' & Hrange%elem_of_seqZ).
    apply (Hdisk r i); [lia|]. exact Hi'. }
  destruct (lookup_images dir (range num) s) as [imgs Himgs].
  { intros i Hi. destruct (Hall i Hi) as (img & ? & _). eauto. }
  exists imgs. split; [done|]. rewrite finish_rank0 by done.
  set (s0 := State (fs s) (rng s) (trace s ++ [Barrier])).
  fold num.
  rewrite (create_npz_stacks dir num s0 imgs h w); [|lia|done|].
  - subst s0. cbn [fs rng trace]. by rewrite <- !(assoc_L (++)).
  - apply Forall_lookup. intros k img Himg.
    destruct (Forall2_lookup_r _ _ _ _ _ Himgs Himg) as (i & Hi & Hfs).
    apply list_elem_of_lookup_2 in Hi.
    destruct (Hall i Hi) as (img' & Hfs' & Hsh). congruence.
Qed.

Lemma stays_weaken {A} (Q Q' : event → Prop) (m : M A) :
  (∀ e, Q e → Q' e) → stays (extends Q) m → stays (extends Q') m.
Proof. intros HQ Hm s. eapply extends_weaken; [exact HQ|apply Hm]. Qed.

Lemma quiet_calm e : quiet e → calm e.
Proof. by intros He ->. Qed.

Lemma sampling_calm e : sampling e → calm e.
Proof. by intros He ->. Qed.

Lemma calm_create_npz dir num :
  stays (extends calm) (create_npz_from_sample_folder dir num).
Proof.
  unfold create_npz_from_sample_folder, image_open, np_savez. run_auto.
Qed.

Lemma leaves_destroy : leaves_on_success dist_destroy_process_group.
Proof. intros s. exists []. by split. Qed.

Lemma leaves_bind {A B} (m : M A) (k : A → M B) :
  stays (extends calm) m → (∀ x, leaves_on_success (k x)) →
  leaves_on_success (m ≫= k).
Proof.
  intros Hm Hk s. rewrite run_bind. destruct (Hm s) as (tr & Htr & Hcalm).
  destruct (m s) as [[e|x] s1]; cbn [fst snd] in *.
  - exists tr. rewrite app_nil_r. done.
  - destruct (Hk x s1) as (tr' & Hcalm' & Htr'). exists (tr ++ tr').
    split; [by apply Forall_app|]. rewrite Htr', Htr.
    by rewrite <- !(assoc_L (++)).
Qed.

(** X17.  The process group is left exactly on normal exit, as the last
    act: whatever the arguments and the state, the events of a run of
    [main] are events other than [destroy_process_group], followed by one
    [destroy_process_group] when [main] returns, and by nothing when it
    ends with an exception. *)
Theorem destroy_only_on_normal_exit a P s :
  ∃ tr, Forall calm tr ∧
    trace (main a P s).2 =
      trace s ++ tr ++
        match (main a P s).1 with
        | inr _ => [DestroyProcessGroup]
        | inl _ => []
        end.
Proof.
  assert (leaves_on_success (main a P)) as Hmain; [|apply Hmain].
  unfold main. apply leaves_bind.
  { eapply stays_weaken; [apply quiet_calm|apply extends_load_all]. }
  intros l. apply leaves_bind; [run_auto|]. intros _.
  apply leaves_bind.
  { eapply stays_weaken; [apply quiet_calm|apply extends_decide_skip]. }
  intros skip. unfold after_decision, dist_broadcast.
  apply leaves_bind; [run_auto|]. intros [].
  { apply leaves_destroy. }
  unfold dist_barrier. apply leaves_bind; [run_auto|]. intros _.
  apply leaves_bind.
  { eapply stays_weaken; [apply sampling_calm|apply sampling_sample_all]. }
  intros _. unfold finish, dist_barrier.
  apply leaves_bind; [run_auto|]. intros _.
  apply leaves_bind.
  { pose proof calm_create_npz. destruct (rank P =? 0); run_auto. }
  intros _. apply leaves_bind; [run_auto|]. intros _. apply leaves_destroy.
Qed.

End Group.

(** ** Running again, and the ways to fail *)

Section Again.
Context `{Collaborators}.

(** A run of rank 0 that ends normally got through loading and the check
    of the guidance scale, and leaves the archive in place. *)
Lemma success_leaves_archive a P s :
  rank P = 0 → (main a P s).1 = inr () →
  ∃ l, (load_all a P s).1 = inr l ∧
    float_ge (cfg_scale a) float_one = true ∧
    is_Some (fs (main a P s).2 !! npz_path
      (sample_folder_dir a (l_exp_name l) (l_train_step_str l))).
Proof.
  intros Hr Hrun.
  destruct (load_all a P s) as [[e|l] s1] eqn:Hl.
  { unfold main in Hrun. by rewrite run_bind, Hl in Hrun. }
  exists l. split; [done|].
  destruct (float_ge (cfg_scale a) float_one) eqn:Hcfg.
  2:{ unfold main in Hrun. rewrite run_bind, Hl in Hrun.
      rewrite Hcfg in Hrun. done. }
  split; [done|]. revert Hrun.
  rewrite (main_loaded _ _ _ _ _ Hl Hcfg). cbn zeta.
  set (dir := sample_folder_dir a (l_exp_name l) (l_train_step_str l)).
  rewrite run_bind.
  destruct (decide_skip P dir s1) as [[e|flag] s2] eqn:Hskip; [done|].
  pose proof (decide_skip_flag _ _ _ _ _ Hr Hskip) as Hflag.
  destruct flag.
  - symmetry in Hflag. apply bool_decide_eq_true in Hflag.
    rewrite (decide_skip_archived _ _ _ Hr Hflag) in Hskip.
    injection Hskip as <-.
    rewrite after_decision_skip by (by rewrite Hr). done.
  - rewrite after_decision_sample by (by rewrite Hr). rewrite run_bind.
    destruct (sample_all _ _ _ _ _ _ _ _) as [[e|[]] s3]; [done|].
    rewrite finish_rank0 by done.
    match goal with |- context [create_npz_from_sample_folder dir ?n ?s0] =>
      pose proof (create_npz_spec dir n s0) as Hspec; cbv zeta in Hspec;
      destruct (create_npz_from_sample_folder dir n s0) as [[e|path] s4]
    end; [done|].
    cbn [fst snd] in Hspec.
    destruct Hspec as (_ & _ & _ & arr & h & w & _ & ->). intros _.
    cbn [snd fs]. rewrite lookup_insert_eq. eauto.
Qed.

(** X18.  Runs are idempotent.  When rank 0 ends normally the archive is
    in place, and a second run with the same arguments on the file system
    the first one left behind, if it gets through loading, is skipped: it
    ends normally after the broadcast of [true], without sampling, and
    changes nothing. *)
Theorem rerun_is_skipped a P s s2 l2 :
  rank P = 0 → (main a P s).1 = inr () →
  fs s2 = fs (main a P s).2 →
  (load_all a P s2).1 = inr l2 →
  is_Some (fs (main a P s).2 !! npz_path
    (sample_folder_dir a (l_exp_name l2) (l_train_step_str l2))) ∧
  main a P s2 =
    (inr (),
     State (fs s2)
       (seed_generator (worker_seed (global_seed a) (rank P) (world_size P)))
       (trace s2 ++ loading_events a P
          ++ [Broadcast true; DestroyProcessGroup])).
Proof.
  intros Hr Hrun Hfs Hl2.
  destruct (success_leaves_archive a P s Hr Hrun) as (l & Hl & Hcfg & Hnpz).
  apply load_all_run in Hl, Hl2.
  destruct (load_all_inr _ _ _ _ _ Hl) as (_ & _ & _ & Hname & Hstep).
  destruct (load_all_inr _ _ _ _ _ Hl2) as (_ & _ & _ & Hname2 & Hstep2).
  rewrite Hname2, Hstep2, <- Hname, <- Hstep. split; [done|].
  rewrite (main_skips a P s2 l2 _ Hl2 Hcfg); [done| |done].
  by rewrite Hname2, Hstep2, <- Hname, <- Hstep, Hfs.
Qed.

(** X19.  Without an accelerator [main] fails at once, with the assertion
    of line 57, before it joins the process group; the state is as it
    was. *)
Theorem no_gpu_fails_first a P s :
  cuda_available P = false →
  main a P s =
    (inl (AssertionError
       "Sampling with DDP requires at least one GPU. sample.py supports CPU-only usage"),
     s).
Proof.
  intros Hcuda. unfold main, load_all, setup_ddp. by rewrite Hcuda.
Qed.

(** The state after the process group is set up. *)
Lemma setup_ddp_run a P s :
  cuda_available P = true → device_count P ≠ 0 →
  setup_ddp a P s =
    (inr (worker_seed (global_seed a) (rank P) (world_size P)),
     State (fs s)
       (seed_generator (worker_seed (global_seed a) (rank P) (world_size P)))
       (trace s ++ [InitProcessGroup;
                    ManualSeed (worker_seed (global_seed a) (rank P) (world_size P));
                    SetDevice (rank P mod device_count P)])).
Proof.
  intros Hcuda Hdev%Z.eqb_neq.
  unfold setup_ddp, dist_init_process_group, py_mod, torch_manual_seed.
  rewrite Hcuda, Hdev. run_unfold. cbn. by rewrite <- !(assoc_L (++)).
Qed.



(** X22.  When the path of the sample folder holds a file that is not a
    directory, rank 0 fails with [FileExistsError] in [os.makedirs], after
    loading and before the broadcast: nothing is sent to the other
    ranks, and the file system is as it was. *)
Theorem folder_is_a_file_fails a P s l f :
  rank P = 0 →
  (load_all a P s).1 = inr l →
  float_ge (cfg_scale a) float_one = true →
  let dir := sample_folder_dir a (l_exp_name l) (l_train_step_str l) in
  fs s !! npz_path dir = None →
  fs s !! dir = Some f → f ≠ Directory →
  main a P s =
    (inl (FileExistsError dir),
     State (fs s)
       (seed_generator (worker_seed (global_seed a) (rank P) (world_size P)))
       (trace s ++ loading_events a P)).
Proof.
  intros Hr Hl%load_all_run Hcfg dir Hnpz Hdir Hf.
  rewrite (main_loaded _ _ _ _ _ Hl Hcfg). cbn zeta. fold dir.
  rewrite run_bind. unfold decide_skip, os_path_exists, os_makedirs.
  rewrite Hr. cbn [Z.eqb]. run_unfold. cbv beta iota. cbn [fs].
  rewrite Hnpz. cbv beta iota. cbn [fs]. rewrite Hdir. by destruct f.
Qed.


End Again.

Section Edges.
Context `{Collaborators}.

Lemma batch_plan_zero n world_size :
  n ≠ 0 → world_size ≠ 0 →
  batch_plan 0 n world_size = inr (SamplePlan (n * world_size) 0 0 0).
Proof.
  intros Hn Hw. rewrite batch_plan_unfold by done.
  unfold ceil_true_divide, PyFloat.true_divide.
  rewrite (proj2 (Z.eqb_neq (n * world_size) 0)) by lia. reflexivity.
Qed.

(** X24.  Asked for zero samples, rank 0 gets through loading, creates
    the sample folder, plans no iteration and samples nothing, whatever
    the mode; it then fails with [ValueError] when it builds the archive,
    between the second and the third barrier. *)
Theorem zero_samples_fails a P s l :
  rank P = 0 → num_fid_samples a = 0 →
  (load_all a P s).1 = inr l →
  float_ge (cfg_scale a) float_one = true →
  pproc_batch_size a ≠ 0 → world_size P ≠ 0 →
  let dir := sample_folder_dir a (l_exp_name l) (l_train_step_str l) in
  fs s !! npz_path dir = None →
  fs s !! dir = None ∨ fs s !! dir = Some Directory →
  main a P s =
    (inl (ValueError "need at least one array to stack"),
     State (<[dir := Directory]> (fs s))
       (seed_generator (worker_seed (global_seed a) (rank P) (world_size P)))
       (trace s ++ loading_events a P
          ++ [Makedirs dir; Broadcast false; Barrier; Barrier])).
Proof.
  intros Hr Hnum Hl Hcfg Hn Hw dir Hnpz Hdir.
  rewrite (main_samples a P s l Hl Hcfg) by done. fold dir.
  rewrite (proj2 (Z.eqb_eq _ _) Hr). rewrite run_bind.
  unfold sample_all at 1. rewrite Hnum, batch_plan_zero by done.
  rewrite run_bind. unfold lift at 1. cbv beta iota.
  cbn [iterations range seqZ]. change (range 0) with (@nil Z).
  cbn [for_fold]. rewrite run_bind. unfold mret at 1, M_ret at 1.
  cbv beta iota. unfold mret at 1, M_ret at 1. cbv beta iota.
  rewrite finish_rank0 by done. rewrite Hnum.
  unfold create_npz_from_sample_folder. change (range 0) with (@nil Z).
  cbn [for_fold]. run_unfold. cbn. by rewrite <- !(assoc_L (++)).
Qed.

(** The configuration that loading hands on is the one stored in
    [args.json] of the experiment folder. *)
Lemma load_all_config a P s l :
  (load_all a P s).1 = inr l →
  fs s !! path_join (resolve_experiment a).1 "args.json"
  = Some (JsonFile (l_config l)).
Proof.
  unfold load_all. rewrite run_bind.
  pose proof (same_files_setup_ddp a P s) as Hfs.
  destruct (setup_ddp a P s) as [[e|seed] s1]; [done|].
  unfold same_files in Hfs. cbn [snd] in Hfs. rewrite <- Hfs.
  destruct (resolve_experiment a) as [p t]. cbn [fst].
  rewrite run_bind. unfold open_json at 1. run_unfold.
  destruct (fs s1 !! path_join p "args.json") as [[]|]; try done.
  cbv beta iota.
  destruct (latent_geometry c) as [e|[ls ic]]; [done|]. cbv beta iota.
  destruct (assemble _ _ _ _ s1) as [[e|m] s2]; [done|].
  by intros [= <-].
Qed.

(** X25.  When the experiment path or the training step is not given,
    both fall back to their defaults (lines 69-73): an experiment path
    given without a step is ignored, the configuration is read from the
    default experiment folder, and the sample folder is named after the
    default experiment and the step [0400000]. *)
Theorem partial_experiment_uses_defaults a P s l :
  exp_path a = None ∨ train_steps a = None →
  (load_all a P s).1 = inr l →
  l_exp_name l = "sit-xl-dinov2-b-enc8-repae-sdvae-0.5-1.5-400k" ∧
  l_train_step_str l = "0400000" ∧
  fs s !! "pretrained/sit-xl-dinov2-b-enc8-repae-sdvae-0.5-1.5-400k/args.json"
  = Some (JsonFile (l_config l)).
Proof.
  intros Hnone Hl. pose proof (load_all_config a P s l Hl) as Hc.
  apply load_all_run, load_all_inr in Hl as (_ & _ & _ & -> & ->).
  assert (resolve_experiment a =
    ("pretrained/sit-xl-dinov2-b-enc8-repae-sdvae-0.5-1.5-400k", "400000"))
    as Hres.
  { unfold resolve_experiment.
    destruct Hnone as [-> | ->]; [done|]. by destruct (exp_path a). }
  rewrite Hres in *. done.
Qed.

End Edges.

(** ** The further properties at concrete inputs *)

Lemma stub_decoder_shape t img :
  img ∈ @decode_uint8 stub () t → shape img = [2; 2; 3].
Proof. by intros [-> _]%elem_of_replicate. Qed.

Lemma image_files_distinct_witness :
  NoDup (png_path "out" <$> group_indices (SamplePlan 4 8 4 2) 2 2).
Proof.
  apply (image_files_distinct 7 2 2 (SamplePlan 4 8 4 2) "out");
    [lia | lia | reflexivity].
Defined.


Lemma plan_is_least_multiple_witness :
  ∃ p, batch_plan 50000 64 8 = inr p ∧
    global_batch_size p = 64 * 8 ∧
    total_samples p = iterations p * global_batch_size p ∧
    samples_needed_this_gpu p = iterations p * 64 ∧
    1 ≤ iterations p ∧
    50000 ≤ total_samples p < 50000 + global_batch_size p ∧
    (50000 mod global_batch_size p = 0 → total_samples p = 50000).
Proof.
  apply (plan_is_least_multiple 50000 64 8); [|lia|lia|];
    vm_compute; try split; congruence.
Defined.

Lemma worker_seed_strictly_increasing_witness :
  worker_seed 0 1 4 < worker_seed 0 2 4 ∧
  worker_seed (0 + 1) 1 4 = worker_seed 0 (1 + 1) 4.
Proof. apply (worker_seed_strictly_increasing 0 4 1 2); lia. Defined.

Lemma archive_contents_witness :
  let s := @State stub fs_images 0 [] in
  let imgs := replicate 3 blank_image in
  let run := @create_npz_from_sample_folder stub "out" 3 s in
  run.1 = inr (npz_path "out") ∧
  fs run.2 =
    <[npz_path "out" := NpzFile (NdArray [3; 2; 2; 3] (imgs ≫= elements))]>
      (fs s) ∧
  rng run.2 = rng s ∧
  trace run.2 =
    trace s ++ open_events "out" (range 3) ++ [SaveNpz (npz_path "out")].
Proof.
  apply (@archive_contents stub "out" 3 (@State stub fs_images 0 [])
           (replicate 3 blank_image) 2 2).
  - lia.
  - repeat constructor.
  - repeat constructor.
Defined.

Lemma archive_of_nothing_witness :
  @create_npz_from_sample_folder stub "out" 0 (@State stub fs_images 0 []) =
    (inl (ValueError "need at least one array to stack"),
     @State stub fs_images 0 []).
Proof.
  apply (@archive_of_nothing stub "out" 0 (@State stub fs_images 0 [])). lia.
Defined.



Lemma single_worker_run_witness :
  let a := default_args 3 2 in
  let P := Process 0 1 true 1 false in
  let s := @State stub fs_config 0 [] in
  let dir := @sample_folder_dir stub a (l_exp_name stub_loaded)
               (l_train_step_str stub_loaded) in
  let num := num_fid_samples a in
  let total :=
    exact_ceil_div num (pproc_batch_size a) * pproc_batch_size a in
  let run := @main stub a P s in
  run.1 = inr () ∧
  num ≤ total ∧
  (∃ tr,
     trace run.2 =
       trace s ++ loading_events a P
         ++ [Makedirs dir; Broadcast false; Barrier] ++ tr ++ [Barrier]
         ++ open_events dir (range num)
         ++ [SaveNpz (npz_path dir); Barrier; DestroyProcessGroup] ∧
     Forall sampling tr ∧
     saved_paths tr = png_path dir <$> range total) ∧
  (∃ imgs,
     Forall2 (λ i img, fs run.2 !! png_path dir i = Some (PngFile img))
       (range total) imgs ∧
     Forall (λ img, shape img = [2; 2; 3]) imgs ∧
     fs run.2 !! npz_path dir =
       Some (NpzFile (NdArray [num; 2; 2; 3]
                        (take (Z.to_nat num) imgs ≫= elements)))).
Proof.
  apply (@single_worker_run stub stub_batch_preserving (default_args 3 2)
           (Process 0 1 true 1 false) (@State stub fs_config 0 [])
           stub_loaded 2 2).
  - reflexivity.
  - reflexivity.
  - vm_compute. reflexivity.
  - reflexivity.
  - reflexivity.
  - reflexivity.
  - vm_compute. split; congruence.
  - vm_compute. split; congruence.
  - apply stub_decoder_shape.
  - vm_compute. reflexivity.
  - left. vm_compute. reflexivity.
Defined.

Lemma rerun_is_skipped_witness :
  let a := default_args 3 2 in
  let P := Process 0 1 true 1 false in
  let s := @State stub fs_config 0 [] in
  let s2 := (@main stub a P s).2 in
  is_Some (fs (@main stub a P s).2 !! npz_path
    (@sample_folder_dir stub a (l_exp_name stub_loaded)
       (l_train_step_str stub_loaded))) ∧
  @main stub a P s2 =
    (inr (),
     State (fs s2)
       (seed_generator (worker_seed (global_seed a) (rank P) (world_size P)))
       (trace s2 ++ loading_events a P
          ++ [Broadcast true; DestroyProcessGroup])).
Proof.
  apply (@rerun_is_skipped stub (default_args 3 2) (Process 0 1 true 1 false)
           (@State stub fs_config 0 [])
           (@main stub (default_args 3 2) (Process 0 1 true 1 false)
              (@State stub fs_config 0 [])).2
           stub_loaded).
  - reflexivity.
  - vm_compute. reflexivity.
  - reflexivity.
  - vm_compute. reflexivity.
Defined.

Lemma no_gpu_fails_first_witness :
  @main stub (default_args 100 10) (Process 0 1 false 0 false)
    (@State stub fs_config 0 []) =
    (inl (AssertionError
       "Sampling with DDP requires at least one GPU. sample.py supports CPU-only usage"),
     @State stub fs_config 0 []).
Proof.
  apply (@no_gpu_fails_first stub (default_args 100 10)
           (Process 0 1 false 0 false) (@State stub fs_config 0 [])).
  reflexivity.
Defined.



Lemma folder_is_a_file_fails_witness :
  let a := default_args 100 10 in
  let P := Process 0 4 true 2 false in
  let s := @State stub (<[ default_folder := OtherFile ]> fs_config) 0 [] in
  let dir := @sample_folder_dir stub a (l_exp_name stub_loaded)
               (l_train_step_str stub_loaded) in
  @main stub a P s =
    (inl (FileExistsError dir),
     State (fs s)
       (seed_generator (worker_seed (global_seed a) (rank P) (world_size P)))
       (trace s ++ loading_events a P)).
Proof.
  apply (@folder_is_a_file_fails stub (default_args 100 10)
           (Process 0 4 true 2 false)
           (@State stub (<[ default_folder := OtherFile ]> fs_config) 0 [])
           stub_loaded OtherFile);
    [reflexivity | vm_compute; reflexivity | reflexivity
    | vm_compute; reflexivity | vm_compute; reflexivity | done].
Defined.


Lemma zero_samples_fails_witness :
  let a := default_args 0 2 in
  let P := Process 0 1 true 1 false in
  let s := @State stub fs_config 0 [] in
  let dir := @sample_folder_dir stub a (l_exp_name stub_loaded)
               (l_train_step_str stub_loaded) in
  @main stub a P s =
    (inl (ValueError "need at least one array to stack"),
     State (<[dir := Directory]> (fs s))
       (seed_generator (worker_seed (global_seed a) (rank P) (world_size P)))
       (trace s ++ loading_events a P
          ++ [Makedirs dir; Broadcast false; Barrier; Barrier])).
Proof.
  apply (@zero_samples_fails stub (default_args 0 2)
           (Process 0 1 true 1 false) (@State stub fs_config 0 [])
           stub_loaded);
    [reflexivity | reflexivity | vm_compute; reflexivity | reflexivity
    | done | done | vm_compute; reflexivity
    | left; vm_compute; reflexivity].
Defined.

Lemma partial_experiment_uses_defaults_witness :
  let a := Args 0 true "samples" (Some "exps/mine") None 2 4 "ode"
             float_one_and_half "linear" 50 false (S754_zero false) float_one in
  let s := @State stub fs_config 0 [] in
  l_exp_name stub_loaded = "sit-xl-dinov2-b-enc8-repae-sdvae-0.5-1.5-400k" ∧
  l_train_step_str stub_loaded = "0400000" ∧
  fs s !! "pretrained/sit-xl-dinov2-b-enc8-repae-sdvae-0.5-1.5-400k/args.json"
  = Some (JsonFile (l_config stub_loaded)).
Proof.
  apply (@partial_experiment_uses_defaults stub
           (Args 0 true "samples" (Some "exps/mine") None 2 4 "ode"
              float_one_and_half "linear" 50 false (S754_zero false) float_one)
           (Process 0 1 true 1 false) (@State stub fs_config 0 [])
           stub_loaded);
    [right; reflexivity | vm_compute; reflexivity].
Defined.

Lemma group_images_suffice_witness :
  let a := default_args 3 2 in
  let P := Process 0 2 true 1 false in
  let s := @State stub fs_images 0 [] in
  let num := num_fid_samples a in
  ∃ imgs,
    Forall2 (λ i img, fs s !! png_path "out" i = Some (PngFile img))
      (range num) imgs ∧
    @finish stub a P "out" s =
      (inr (),
       State (<[npz_path "out" :=
                  NpzFile (NdArray [num; 2; 2; 3] (imgs ≫= elements))]> (fs s))
         (rng s)
         (trace s ++ [Barrier] ++ open_events "out" (range num)
            ++ [SaveNpz (npz_path "out"); Barrier; DestroyProcessGroup])).
Proof.
  apply (@group_images_suffice stub (default_args 3 2)
           (Process 0 2 true 1 false) "out" (@State stub fs_images 0 [])
           2 2 (SamplePlan 4 4 2 1)).
  - reflexivity.
  - vm_compute. split; congruence.
  - vm_compute. congruence.
  - vm_compute. congruence.
  - vm_compute. congruence.
  - reflexivity.
  - intros r i Hr Hi. assert (r = 0 ∨ r = 1) as [-> | ->] by (cbn in Hr; lia).
    + apply list_elem_of_In in Hi. cbn in Hi.
      destruct Hi as [<-|[<-|[]]]; by eexists.
    + apply list_elem_of_In in Hi. cbn in Hi.
      destruct Hi as [<-|[<-|[]]]; by eexists.
Defined.

